(** * A shallow embedding of LamAPI's Wikidata dump ingestion

    This development models [scripts/parse_wikidata_dump.py]: the Python
    values it manipulates (decoded JSON plus the sets it builds), the
    exceptions Python raises on the way, the module-level buffers and
    collections it mutates, the taxonomy construction, the per-entity
    classification [parse_data] and the main loop of
    [parse_wikidata_dump].

    Parts of the runtime that the program only observes through their
    results are kept abstract: the numeric semantics and printing of
    binary64 floats, the text of exception messages and tracebacks, and the
    answers of the remote SPARQL endpoints. Every theorem below holds for
    every choice of them. *)

From Stdlib Require Import ZArith String Ascii List Bool Lia.
Import ListNotations.
Set Warnings "-register-all".
Open Scope string_scope.
Open Scope list_scope.
Open Scope Z_scope.

(** ** Python values *)

(** A JSON number with a fraction or an exponent becomes a Python float;
    it is kept here as the literal read (sign, digits [m], exponent [e]:
    [m * 10 ^ e]) or as one of the constants [NaN], [Infinity],
    [-Infinity] that [json] accepts. *)
Inductive flt : Type :=
| FDec (neg : bool) (m e : Z)
| FInf (neg : bool)
| FNaN.

(** Strings are kept as their (generalised, surrogates allowed) UTF-8
    encoding. A [dict] is an association list in insertion order. A
    [bson.ObjectId], the [_id] pymongo gives to inserted documents, is
    kept as its rank among the object ids the process has created. *)
Inductive pyval : Type :=
| PNone
| PBool (b : bool)
| PInt (z : Z)
| PFloat (f : flt)
| PStr (s : string)
| PList (xs : list pyval)
| PDict (kvs : list (pyval * pyval))
| PSet (xs : list pyval)
| PObjectId (n : Z).

(** The exceptions the program can meet. [RequestException] stands for a
    failure of the HTTP layer ([requests]); [BulkWriteError] is what
    pymongo raises when the server refuses a write of [insert_many]. *)
Inductive exn : Type :=
| KeyError (k : pyval)
| TypeError (what : string)
| AttributeError (what : string)
| IndexError
| UnboundLocalError (name : string)
| ValueError (what : string)
| JSONDecodeError
| UnicodeDecodeError
| InvalidDocument
| OverflowError
| BulkWriteError
| RequestException (what : string).

Definition is_JSONDecodeError (e : exn) : bool :=
  match e with JSONDecodeError => true | _ => false end.

Inductive res (A : Type) : Type :=
| Ok (a : A)
| Exc (e : exn).
Arguments Ok {A} a.
Arguments Exc {A} e.

Definition rbind {A B} (r : res A) (f : A -> res B) : res B :=
  match r with Ok a => f a | Exc e => Exc e end.

Notation "'let!' x := r 'in' k" := (rbind r (fun x => k))
  (at level 200, x name, r at level 100, k at level 200).

(** The parts of CPython the program observes but that are not modelled:
    comparisons involving binary64 floats, [str()] of a float or of a
    container, [str(e)] of an exception and [traceback.format_exc()]. *)
Record PyRuntime : Type := {
  flt_eq : flt -> flt -> bool;
  flt_eqz : flt -> Z -> bool;
  repr_other : pyval -> string;
  exn_str : exn -> string;
  format_exc : exn -> string
}.

(** ** Bytes and UTF-8 *)

Definition byte_val (c : ascii) : Z := Z.of_nat (nat_of_ascii c).
Definition byte_of (z : Z) : ascii := ascii_of_nat (Z.to_nat z).

Fixpoint bytes_of (s : string) : list Z :=
  match s with
  | EmptyString => []
  | String c r => byte_val c :: bytes_of r
  end.

Fixpoint string_of_bytes (l : list Z) : string :=
  match l with
  | [] => EmptyString
  | b :: r => String (byte_of b) (string_of_bytes r)
  end.

(** UTF-8 encoding of one code point (surrogates encoded like any other
    code point, as CPython's ["surrogatepass"] does). *)
Definition utf8_encode_cp (c : Z) : list Z :=
  if c <? 128 then [c]
  else if c <? 2048 then
    [192 + Z.shiftr c 6; 128 + Z.land c 63]
  else if c <? 65536 then
    [224 + Z.shiftr c 12; 128 + Z.land (Z.shiftr c 6) 63; 128 + Z.land c 63]
  else
    [240 + Z.shiftr c 18; 128 + Z.land (Z.shiftr c 12) 63;
     128 + Z.land (Z.shiftr c 6) 63; 128 + Z.land c 63].

Definition str_of_cps (cps : list Z) : string :=
  string_of_bytes (flat_map utf8_encode_cp cps).

Definition is_cont_byte (c : ascii) : bool := Z.land (byte_val c) 192 =? 128.

(** The characters of a Python [str]: each one is a lead byte followed by
    its continuation bytes. *)
Fixpoint utf8_chars_acc (s : string) (cur : string) : list string :=
  match s with
  | EmptyString => match cur with EmptyString => [] | _ => [cur] end
  | String c r =>
      if is_cont_byte c then utf8_chars_acc r ((cur ++ String c EmptyString)%string)
      else match cur with
           | EmptyString => utf8_chars_acc r (String c EmptyString)
           | _ => cur :: utf8_chars_acc r (String c EmptyString)
           end
  end.

Definition utf8_chars (s : string) : list string := utf8_chars_acc s EmptyString.

(** ** Python operations on values *)

Section PyOps.
Variable rt : PyRuntime.

Inductive numv := NZ (z : Z) | NF (f : flt).

Definition as_num (v : pyval) : option numv :=
  match v with
  | PBool b => Some (NZ (if b then 1 else 0))
  | PInt z => Some (NZ z)
  | PFloat f => Some (NF f)
  | _ => None
  end.

Definition num_eq (a b : numv) : bool :=
  match a, b with
  | NZ x, NZ y => x =? y
  | NZ x, NF f | NF f, NZ x => flt_eqz rt f x
  | NF f, NF g => flt_eq rt f g
  end.

(** [a == b]. *)
Fixpoint py_eq (a b : pyval) {struct a} : bool :=
  match a, b with
  | PNone, PNone => true
  | PStr s, PStr t => String.eqb s t
  | PList xs, PList ys =>
      (fix go (xs ys : list pyval) : bool :=
         match xs, ys with
         | [], [] => true
         | x :: xs', y :: ys' => py_eq x y && go xs' ys'
         | _, _ => false
         end) xs ys
  | PDict kvs, PDict lvs =>
      Nat.eqb (length kvs) (length lvs) &&
      forallb (fun '(k, v) =>
                 existsb (fun '(k', v') => py_eq k k' && py_eq v v') lvs) kvs
  | PSet xs, PSet ys =>
      Nat.eqb (length xs) (length ys) &&
      forallb (fun x => existsb (fun y => py_eq x y) ys) xs
  | _, _ =>
      match as_num a, as_num b with
      | Some x, Some y => num_eq x y
      | _, _ => false
      end
  end.

Definition hashable (v : pyval) : bool :=
  match v with PList _ | PDict _ | PSet _ => false | _ => true end.

Fixpoint dlookup (kvs : list (pyval * pyval)) (k : pyval) : option pyval :=
  match kvs with
  | [] => None
  | (k', v) :: r => if py_eq k' k then Some v else dlookup r k
  end.

(** [d[k] = v]: overwrite in place, or append a new key at the end. *)
Fixpoint dset (kvs : list (pyval * pyval)) (k v : pyval) : list (pyval * pyval) :=
  match kvs with
  | [] => [(k, v)]
  | (k', v') :: r => if py_eq k' k then (k', v) :: r else (k', v') :: dset r k v
  end.

Definition as_index (v : pyval) : option Z :=
  match v with
  | PInt z => Some z
  | PBool b => Some (if b then 1 else 0)
  | _ => None
  end.

Definition seq_index {A} (xs : list A) (z : Z) : option A :=
  let n := Z.of_nat (length xs) in
  if (0 <=? z) && (z <? n) then nth_error xs (Z.to_nat z)
  else if (- n <=? z) && (z <? 0) then nth_error xs (Z.to_nat (n + z))
  else None.

(** [x[k]]. *)
Definition py_getitem (x k : pyval) : res pyval :=
  match x with
  | PDict kvs =>
      if hashable k then
        match dlookup kvs k with Some v => Ok v | None => Exc (KeyError k) end
      else Exc (TypeError "unhashable type")
  | PList xs =>
      match as_index k with
      | Some z => match seq_index xs z with Some v => Ok v | None => Exc IndexError end
      | None => Exc (TypeError "list indices must be integers or slices")
      end
  | PStr s =>
      match as_index k with
      | Some z => match seq_index (utf8_chars s) z with
                  | Some c => Ok (PStr c) | None => Exc IndexError end
      | None => Exc (TypeError "string indices must be integers")
      end
  | _ => Exc (TypeError "object is not subscriptable")
  end.

(** [x.get(k, default)]. *)
Definition py_get (x k default : pyval) : res pyval :=
  match x with
  | PDict kvs =>
      if hashable k then
        match dlookup kvs k with Some v => Ok v | None => Ok default end
      else Exc (TypeError "unhashable type")
  | _ => Exc (AttributeError "get")
  end.

Fixpoint str_contains (hay needle : string) : bool :=
  if String.prefix needle hay then true
  else match hay with EmptyString => false | String _ r => str_contains r needle end.

(** [needle in hay]. *)
Definition py_in (needle hay : pyval) : res bool :=
  match hay with
  | PDict kvs =>
      if hashable needle then Ok (existsb (fun kv => py_eq (fst kv) needle) kvs)
      else Exc (TypeError "unhashable type")
  | PSet xs =>
      if hashable needle then Ok (existsb (fun x => py_eq x needle) xs)
      else Exc (TypeError "unhashable type")
  | PList xs => Ok (existsb (fun x => py_eq x needle) xs)
  | PStr s =>
      match needle with
      | PStr t => Ok (str_contains s t)
      | _ => Exc (TypeError "'in <string>' requires string as left operand")
      end
  | _ => Exc (TypeError "argument is not iterable")
  end.

(** [for x in v]. *)
Definition py_iter (v : pyval) : res (list pyval) :=
  match v with
  | PDict kvs => Ok (map fst kvs)
  | PList xs | PSet xs => Ok xs
  | PStr s => Ok (map PStr (utf8_chars s))
  | _ => Exc (TypeError "object is not iterable")
  end.

(** [len(v)]. *)
Definition py_len (v : pyval) : res Z :=
  match v with
  | PDict kvs => Ok (Z.of_nat (length kvs))
  | PList xs | PSet xs => Ok (Z.of_nat (length xs))
  | PStr s => Ok (Z.of_nat (length (utf8_chars s)))
  | _ => Exc (TypeError "object has no len()")
  end.

Fixpoint dec_digits (fuel : nat) (n : Z) (acc : string) : string :=
  match fuel with
  | O => acc
  | S f =>
      let acc' := String (byte_of (48 + n mod 10)) acc in
      if n <? 10 then acc' else dec_digits f (n / 10) acc'
  end.

Definition z_to_dec (z : Z) : string :=
  if z <? 0 then ("-" ++ dec_digits (Z.to_nat (Z.log2 (- z) + 2)) (- z) "")%string
  else dec_digits (Z.to_nat (Z.log2 z + 2)) z "".

(** [str(v)]. *)
Definition py_str (v : pyval) : string :=
  match v with
  | PNone => "None"
  | PBool b => if b then "True" else "False"
  | PInt z => z_to_dec z
  | PStr s => s
  | _ => repr_other rt v
  end.

(** ["..." + v] with a string literal on the left. *)
Definition str_concat (s : string) (v : pyval) : res pyval :=
  match v with
  | PStr t => Ok (PStr (s ++ t)%string)
  | _ => Exc (TypeError "can only concatenate str to str")
  end.

Fixpoint replace_space (s : string) : string :=
  match s with
  | EmptyString => EmptyString
  | String c r => String (if Ascii.eqb c " "%char then "_"%char else c) (replace_space r)
  end.

(** [v.replace(" ", "_")]. *)
Definition py_replace_space (v : pyval) : res pyval :=
  match v with
  | PStr s => Ok (PStr (replace_space s))
  | _ => Exc (AttributeError "replace")
  end.

(** [list(set(xs))]: duplicates removed. CPython's iteration order of a
    set is an implementation detail; the order of first occurrence is
    used here, and nothing below depends on it. *)
Fixpoint py_dedup (xs : list pyval) : list pyval :=
  match xs with
  | [] => []
  | x :: r => x :: filter (fun y => negb (py_eq x y)) (py_dedup r)
  end.

End PyOps.

(** ** [json.loads] on a [bytes] line

    [json.loads(b)] first decodes [b] with the encoding chosen by
    [json.detect_encoding] and the ["surrogatepass"] error handler (a
    failure raises [UnicodeDecodeError]), then scans the text with the C
    scanner of [_json] (a failure raises [JSONDecodeError]). Text is a list
    of code points. *)

Inductive encoding :=
| Utf8 | Utf8Sig | Utf16 | Utf16BE | Utf16LE | Utf32 | Utf32BE | Utf32LE.

Fixpoint starts_with (b p : list Z) : bool :=
  match p, b with
  | [], _ => true
  | x :: p', y :: b' => (x =? y) && starts_with b' p'
  | _ :: _, [] => false
  end.

Definition detect_encoding (b : list Z) : encoding :=
  if starts_with b [0; 0; 254; 255] || starts_with b [255; 254; 0; 0] then Utf32
  else if starts_with b [254; 255] || starts_with b [255; 254] then Utf16
  else if starts_with b [239; 187; 191] then Utf8Sig
  else match b with
       | b0 :: b1 :: b2 :: b3 :: _ =>
           if b0 =? 0 then (if b1 =? 0 then Utf32BE else Utf16BE)
           else if b1 =? 0 then (if (b2 =? 0) && (b3 =? 0) then Utf32LE else Utf16LE)
           else Utf8
       | [b0; b1] =>
           if b0 =? 0 then Utf16BE else if b1 =? 0 then Utf16LE else Utf8
       | _ => Utf8
       end.

Definition in_range (lo hi c : Z) : bool := (lo <=? c) && (c <=? hi).
Definition cont (c : Z) : bool := in_range 128 191 c.

(** UTF-8 with ["surrogatepass"]: encoded surrogates [ED A0..BF xx] are
    accepted; overlong forms and values above U+10FFFF are not. *)
Fixpoint utf8_decode (b : list Z) : option (list Z) :=
  match b with
  | [] => Some []
  | c :: r =>
      if c <? 128 then option_map (cons c) (utf8_decode r)
      else if in_range 194 223 c then
        match r with
        | c1 :: r' =>
            if cont c1 then option_map (cons ((c - 192) * 64 + (c1 - 128))) (utf8_decode r')
            else None
        | [] => None
        end
      else if in_range 224 239 c then
        match r with
        | c1 :: c2 :: r' =>
            if (if c =? 224 then in_range 160 191 c1 else cont c1) && cont c2 then
              option_map (cons ((c - 224) * 4096 + (c1 - 128) * 64 + (c2 - 128)))
                         (utf8_decode r')
            else None
        | _ => None
        end
      else if in_range 240 244 c then
        match r with
        | c1 :: c2 :: c3 :: r' =>
            if (if c =? 240 then in_range 144 191 c1
                else if c =? 244 then in_range 128 143 c1 else cont c1)
               && cont c2 && cont c3 then
              option_map (cons ((c - 240) * 262144 + (c1 - 128) * 4096
                                + (c2 - 128) * 64 + (c3 - 128)))
                         (utf8_decode r')
            else None
        | _ => None
        end
      else None
  end.

(** UTF-16 code units, little or big endian; a trailing odd byte is an
    error. *)
Fixpoint utf16_units (le : bool) (b : list Z) : option (list Z) :=
  match b with
  | [] => Some []
  | x :: y :: r =>
      option_map (cons (if le then y * 256 + x else x * 256 + y)) (utf16_units le r)
  | [_] => None
  end.

(** Surrogate pairs are joined; a lone surrogate is passed through by
    ["surrogatepass"]. *)
Fixpoint join_surrogates (us : list Z) : list Z :=
  match us with
  | [] => []
  | u :: r =>
      match r with
      | u2 :: r' =>
          if in_range 55296 56319 u && in_range 56320 57343 u2
          then (65536 + (u - 55296) * 1024 + (u2 - 56320)) :: join_surrogates r'
          else u :: join_surrogates r
      | [] => [u]
      end
  end.

Fixpoint utf32_decode (le : bool) (b : list Z) : option (list Z) :=
  match b with
  | [] => Some []
  | x0 :: x1 :: x2 :: x3 :: r =>
      let c := if le then ((x3 * 256 + x2) * 256 + x1) * 256 + x0
               else ((x0 * 256 + x1) * 256 + x2) * 256 + x3 in
      if c <=? 1114111 then option_map (cons c) (utf32_decode le r) else None
  | _ => None
  end.

Definition decode_text (enc : encoding) (b : list Z) : option (list Z) :=
  match enc with
  | Utf8 => utf8_decode b
  | Utf8Sig => utf8_decode (if starts_with b [239; 187; 191] then skipn 3 b else b)
  | Utf16 =>
      if starts_with b [255; 254] then option_map join_surrogates (utf16_units true (skipn 2 b))
      else if starts_with b [254; 255] then option_map join_surrogates (utf16_units false (skipn 2 b))
      else option_map join_surrogates (utf16_units true b)
  | Utf16BE => option_map join_surrogates (utf16_units false b)
  | Utf16LE => option_map join_surrogates (utf16_units true b)
  | Utf32 =>
      if starts_with b [255; 254; 0; 0] then utf32_decode true (skipn 4 b)
      else if starts_with b [0; 0; 254; 255] then utf32_decode false (skipn 4 b)
      else utf32_decode true b
  | Utf32BE => utf32_decode false b
  | Utf32LE => utf32_decode true b
  end.

Definition is_digit (c : Z) : bool := in_range 48 57 c.
Definition is_ws (c : Z) : bool := (c =? 32) || (c =? 9) || (c =? 10) || (c =? 13).

Fixpoint skip_ws (s : list Z) : list Z :=
  match s with
  | c :: r => if is_ws c then skip_ws r else s
  | [] => []
  end.

Fixpoint span_digits (s : list Z) : list Z * list Z :=
  match s with
  | c :: r => if is_digit c then let '(ds, r') := span_digits r in (c :: ds, r') else ([], s)
  | [] => ([], [])
  end.

Definition digits_val (ds : list Z) : Z :=
  fold_left (fun acc d => acc * 10 + (d - 48)) ds 0.

Definition hex_val (c : Z) : option Z :=
  if is_digit c then Some (c - 48)
  else if in_range 97 102 c then Some (c - 87)
  else if in_range 65 70 c then Some (c - 55)
  else None.

Definition hex4 (a b c d : Z) : option Z :=
  match hex_val a, hex_val b, hex_val c, hex_val d with
  | Some x, Some y, Some z, Some w => Some (((x * 16 + y) * 16 + z) * 16 + w)
  | _, _, _, _ => None
  end.

Definition simple_escape (e : Z) : option Z :=
  if (e =? 34) || (e =? 92) || (e =? 47) then Some e
  else if e =? 98 then Some 8
  else if e =? 102 then Some 12
  else if e =? 110 then Some 10
  else if e =? 114 then Some 13
  else if e =? 116 then Some 9
  else None.

(** [scanstring_unicode] (strict): the text after the opening quote;
    returns the code points of the string and the rest after the closing
    quote. *)
Fixpoint scanstring (fuel : nat) (s : list Z) (acc : list Z) : option (list Z * list Z) :=
  match fuel with
  | O => None
  | S f =>
      match s with
      | [] => None
      | c :: r =>
          if c =? 34 then Some (rev acc, r)
          else if c =? 92 then
            match r with
            | [] => None
            | e :: r1 =>
                if e =? 117 then
                  match r1 with
                  | h1 :: h2 :: h3 :: h4 :: r2 =>
                      match r2, hex4 h1 h2 h3 h4 with
                      | _ :: _, Some u =>
                          if in_range 55296 56319 u && (7 <=? Z.of_nat (length r2))
                             && starts_with r2 [92; 117] then
                            match skipn 2 r2 with
                            | g1 :: g2 :: g3 :: g4 :: r3 =>
                                match hex4 g1 g2 g3 g4 with
                                | Some u2 =>
                                    if in_range 56320 57343 u2 then
                                      scanstring f r3
                                        ((65536 + (u - 55296) * 1024 + (u2 - 56320)) :: acc)
                                    else scanstring f r2 (u :: acc)
                                | None => None
                                end
                            | _ => None
                            end
                          else scanstring f r2 (u :: acc)
                      | _, _ => None
                      end
                  | _ => None
                  end
                else match simple_escape e with
                     | Some ch => scanstring f r1 (ch :: acc)
                     | None => None
                     end
            end
          else if c <=? 31 then None
          else scanstring f r (c :: acc)
      end
  end.

(** [_match_number_unicode]. *)
Definition scan_number (s : list Z) : option (pyval * list Z) :=
  let '(neg, s1) := match s with
                    | c :: r => if c =? 45 then (true, r) else (false, s)
                    | [] => (false, s)
                    end in
  let int_part := match s1 with
                  | c :: r =>
                      if in_range 49 57 c then let '(ds, r') := span_digits r in Some (c :: ds, r')
                      else if c =? 48 then Some ([c], r) else None
                  | [] => None
                  end in
  match int_part with
  | None => None
  | Some (ids, s2) =>
      let '(fds, s3, frac) :=
        match s2 with
        | c :: d :: r =>
            if (c =? 46) && is_digit d then
              let '(ds, r') := span_digits r in (d :: ds, r', true)
            else ([], s2, false)
        | _ => ([], s2, false)
        end in
      let expo :=
        match s3 with
        | c :: (_ :: _) as r =>
            if (c =? 101) || (c =? 69) then
              let '(eneg, r1) :=
                match r with
                | c1 :: (_ :: _) as r' =>
                    if c1 =? 45 then (true, r') else if c1 =? 43 then (false, r') else (false, r)
                | _ => (false, r)
                end in
              match span_digits r1 with
              | ([], _) => None
              | (eds, r2) => Some ((if eneg then - digits_val eds else digits_val eds), r2)
              end
            else None
        | _ => None
        end in
      let m := digits_val (ids ++ fds) in
      match expo with
      | Some (ev, r) => Some (PFloat (FDec neg m (ev - Z.of_nat (length fds))), r)
      | None =>
          if frac then Some (PFloat (FDec neg m (- Z.of_nat (length fds))), s3)
          else Some (PInt (if neg then - m else m), s3)
      end
  end.

(** [PyDict_SetItem] on a decoded object: keys are strings. *)
Fixpoint jset (kvs : list (pyval * pyval)) (k : string) (v : pyval) : list (pyval * pyval) :=
  match kvs with
  | [] => [(PStr k, v)]
  | (k', v') :: r =>
      match k' with
      | PStr t => if String.eqb t k then (k', v) :: r else (k', v') :: jset r k v
      | _ => (k', v') :: jset r k v
      end
  end.

(** [scan_once_unicode], with [_parse_object_unicode] and
    [_parse_array_unicode]. Each call consumes at least one code point, so
    twice the length of the text plus two is enough fuel. *)
Fixpoint scan_once (fuel : nat) (s : list Z) : option (pyval * list Z) :=
  match fuel with
  | O => None
  | S f =>
      match s with
      | [] => None
      | c :: r =>
          if c =? 34 then
            match scanstring (S (length r)) r [] with
            | Some (cps, r') => Some (PStr (str_of_cps cps), r')
            | None => None
            end
          else if c =? 123 then
            match skip_ws r with
            | c1 :: r1 => if c1 =? 125 then Some (PDict [], r1)
                          else parse_members f (c1 :: r1) []
            | [] => None
            end
          else if c =? 91 then
            match skip_ws r with
            | c1 :: r1 => if c1 =? 93 then Some (PList [], r1)
                          else parse_elems f (c1 :: r1) []
            | [] => None
            end
          else if starts_with s [110; 117; 108; 108] then Some (PNone, skipn 4 s)
          else if starts_with s [116; 114; 117; 101] then Some (PBool true, skipn 4 s)
          else if starts_with s [102; 97; 108; 115; 101] then Some (PBool false, skipn 5 s)
          else if starts_with s [78; 97; 78] then Some (PFloat FNaN, skipn 3 s)
          else if starts_with s [73; 110; 102; 105; 110; 105; 116; 121] then
            Some (PFloat (FInf false), skipn 8 s)
          else if starts_with s [45; 73; 110; 102; 105; 110; 105; 116; 121] then
            Some (PFloat (FInf true), skipn 9 s)
          else scan_number s
      end
  end
with parse_members (fuel : nat) (s : list Z) (acc : list (pyval * pyval))
  : option (pyval * list Z) :=
  match fuel with
  | O => None
  | S f =>
      match s with
      | c :: r =>
          if c =? 34 then
            match scanstring (S (length r)) r [] with
            | None => None
            | Some (kcps, r1) =>
                match skip_ws r1 with
                | c1 :: r2 =>
                    if c1 =? 58 then
                      match scan_once f (skip_ws r2) with
                      | None => None
                      | Some (v, r3) =>
                          let acc' := jset acc (str_of_cps kcps) v in
                          match skip_ws r3 with
                          | c2 :: r4 =>
                              if c2 =? 125 then Some (PDict acc', r4)
                              else if c2 =? 44 then parse_members f (skip_ws r4) acc'
                              else None
                          | [] => None
                          end
                      end
                    else None
                | [] => None
                end
            end
          else None
      | [] => None
      end
  end
with parse_elems (fuel : nat) (s : list Z) (acc : list pyval) : option (pyval * list Z) :=
  match fuel with
  | O => None
  | S f =>
      match scan_once f s with
      | None => None
      | Some (v, r) =>
          match skip_ws r with
          | c :: r' =>
              if c =? 93 then Some (PList (rev (v :: acc)), r')
              else if c =? 44 then parse_elems f (skip_ws r') (v :: acc)
              else None
          | [] => None
          end
      end
  end.

(** [JSONDecoder.decode]: leading and trailing whitespace, no extra data. *)
Definition decode_document (cps : list Z) : option pyval :=
  let s := skip_ws cps in
  match scan_once (2 * length s + 2) s with
  | Some (v, r) => match skip_ws r with [] => Some v | _ => None end
  | None => None
  end.

(** [json.loads(b)] for a [bytes] argument. *)
Definition json_loads (b : string) : res pyval :=
  let bs := bytes_of b in
  match decode_text (detect_encoding bs) bs with
  | None => Exc UnicodeDecodeError
  | Some cps => match decode_document cps with
                | Some v => Ok v
                | None => Exc JSONDecodeError
                end
  end.

(** Test inputs are written with single quotes standing for the double
    quotes of JSON. *)
Fixpoint dq (s : string) : string :=
  match s with
  | EmptyString => EmptyString
  | String c r => String (if Ascii.eqb c "'"%char then ascii_of_nat 34 else c) (dq r)
  end.

(** ** Program state

    The module-level state of the script: the four buffers, the four
    collections they are flushed to, the error collection [log_c], the
    running totals of [update_average_size], the loop variable [item] of
    [parse_wikidata_dump] (unbound before the first successful
    [json.loads]) and, to observe the network, the list of entity ids
    passed to [retrieve_superclasses]. *)

Inductive kind := Items | Objects | Literals | Types.

(** Iteration order of the [buffer] dict. *)
Definition kinds : list kind := [Items; Objects; Literals; Types].

Record St := mkSt {
  buf_items : list pyval; buf_objects : list pyval;
  buf_literals : list pyval; buf_types : list pyval;
  db_items : list pyval; db_objects : list pyval;
  db_literals : list pyval; db_types : list pyval;
  log_c : list pyval;
  total_size_processed : Z;
  num_entities_processed : Z;
  item_var : option pyval;
  superclass_calls : list string;
  oid_next : Z  (* the [ObjectId] that [ObjectId()] creates next *)
}.

Definition st0 : St := mkSt [] [] [] [] [] [] [] [] [] 0 0 None [] 0.

Definition buf (st : St) (k : kind) : list pyval :=
  match k with
  | Items => buf_items st | Objects => buf_objects st
  | Literals => buf_literals st | Types => buf_types st
  end.

Definition db (st : St) (k : kind) : list pyval :=
  match k with
  | Items => db_items st | Objects => db_objects st
  | Literals => db_literals st | Types => db_types st
  end.

Definition set_buf (st : St) (k : kind) (l : list pyval) : St :=
  let '(mkSt bi bo bl bt xi xo xl xt lg ts n it sc oi) := st in
  match k with
  | Items => mkSt l bo bl bt xi xo xl xt lg ts n it sc oi
  | Objects => mkSt bi l bl bt xi xo xl xt lg ts n it sc oi
  | Literals => mkSt bi bo l bt xi xo xl xt lg ts n it sc oi
  | Types => mkSt bi bo bl l xi xo xl xt lg ts n it sc oi
  end.

Definition set_db (st : St) (k : kind) (l : list pyval) : St :=
  let '(mkSt bi bo bl bt xi xo xl xt lg ts n it sc oi) := st in
  match k with
  | Items => mkSt bi bo bl bt l xo xl xt lg ts n it sc oi
  | Objects => mkSt bi bo bl bt xi l xl xt lg ts n it sc oi
  | Literals => mkSt bi bo bl bt xi xo l xt lg ts n it sc oi
  | Types => mkSt bi bo bl bt xi xo xl l lg ts n it sc oi
  end.

Definition set_log (st : St) (l : list pyval) : St :=
  let '(mkSt bi bo bl bt xi xo xl xt _ ts n it sc oi) := st in
  mkSt bi bo bl bt xi xo xl xt l ts n it sc oi.

Definition set_item_var (st : St) (v : pyval) : St :=
  let '(mkSt bi bo bl bt xi xo xl xt lg ts n _ sc oi) := st in
  mkSt bi bo bl bt xi xo xl xt lg ts n (Some v) sc oi.

(** [update_average_size(new_size)]; the returned average only feeds the
    progress bar, which is not modelled. *)
Definition update_average_size (st : St) (new_size : Z) : St :=
  let '(mkSt bi bo bl bt xi xo xl xt lg ts n it sc oi) := st in
  mkSt bi bo bl bt xi xo xl xt lg (ts + new_size) (n + 1) it sc oi.

Definition add_call (st : St) (e : string) : St :=
  let '(mkSt bi bo bl bt xi xo xl xt lg ts n it sc oi) := st in
  mkSt bi bo bl bt xi xo xl xt lg ts n it (sc ++ [e]) oi.

(** The next [ObjectId()] of the process. *)
Definition set_oid (st : St) (oi : Z) : St :=
  let '(mkSt bi bo bl bt xi xo xl xt lg ts n it sc _) := st in
  mkSt bi bo bl bt xi xo xl xt lg ts n it sc oi.

(** A state and exception monad: as in Python, the mutations made before
    an exception is raised are kept. *)
Definition M (A : Type) : Type := St -> res A * St.

Definition mret {A} (a : A) : M A := fun st => (Ok a, st).
Definition mbind {A B} (m : M A) (f : A -> M B) : M B :=
  fun st => match m st with
            | (Ok a, st') => f a st'
            | (Exc e, st') => (Exc e, st')
            end.
Definition mraise {A} (e : exn) : M A := fun st => (Exc e, st).
Definition lift {A} (r : res A) : M A := fun st => (r, st).

Notation "x <- m ;; k" := (mbind m (fun x => k))
  (at level 61, m at next level, right associativity).

(** ** pymongo

    [insert_many] and [insert_one] encode every document to BSON before
    sending it: a [set] has no BSON encoding ([InvalidDocument]), an [int]
    must fit in 64 bits ([OverflowError]) and keys must be strings. The
    hundred records of a flush go in one message, so nothing of the batch
    is written when encoding fails. *)
Fixpoint bson_error (v : pyval) : option exn :=
  match v with
  | PSet _ => Some InvalidDocument
  | PInt z => if (- 9223372036854775808 <=? z) && (z <=? 9223372036854775807)
              then None else Some OverflowError
  | PList xs =>
      (fix go (xs : list pyval) : option exn :=
         match xs with
         | [] => None
         | x :: r => match bson_error x with Some e => Some e | None => go r end
         end) xs
  | PDict kvs =>
      (fix go (kvs : list (pyval * pyval)) : option exn :=
         match kvs with
         | [] => None
         | (k, x) :: r =>
             match k with
             | PStr _ => match bson_error x with Some e => Some e | None => go r end
             | _ => Some InvalidDocument
             end
         end) kvs
  | _ => None
  end.

Fixpoint first_error (docs : list pyval) : option exn :=
  match docs with
  | [] => None
  | d :: r => match bson_error d with Some e => Some e | None => first_error r end
  end.

(** [key in d] for a [str] key: only [str] keys can be equal to it. *)
Definition has_str_key (kvs : list (pyval * pyval)) (key : string) : bool :=
  existsb (fun kv => match fst kv with PStr s => String.eqb s key | _ => false end) kvs.

(** The generator of [Collection.insert_many], run to the end by
    [list(gen())] before anything is sent: each document must be a dict
    ([TypeError] otherwise, the documents before it keeping their new
    [_id]); one without ["_id"] gets [document["_id"] = ObjectId()], in
    place. Returns the documents, the next object id and the error. *)
Fixpoint assign_ids (docs : list pyval) (n : Z) : list pyval * Z * option exn :=
  match docs with
  | [] => ([], n, None)
  | PDict kvs :: r =>
      let '(d, n1) := if has_str_key kvs "_id" then (PDict kvs, n)
                      else (PDict (kvs ++ [(PStr "_id", PObjectId n)]), n + 1) in
      let '(r', n2, e) := assign_ids r n1 in
      (d :: r', n2, e)
  | _ => (docs, n, Some (TypeError "document must be an instance of dict"))
  end.

(** Equality of two index keys. The keys the records of this program
    carry are strings ([entity]), missing fields ([category], which no
    record has) and object ids ([_id]): on these, BSON equality is the
    equality of the values. Other values are compared as they are
    written. *)
Fixpoint key_eqb (a b : pyval) {struct a} : bool :=
  match a, b with
  | PNone, PNone => true
  | PBool x, PBool y => Bool.eqb x y
  | PInt x, PInt y => x =? y
  | PFloat (FDec n1 m1 e1), PFloat (FDec n2 m2 e2) => Bool.eqb n1 n2 && (m1 =? m2) && (e1 =? e2)
  | PFloat (FInf n1), PFloat (FInf n2) => Bool.eqb n1 n2
  | PFloat FNaN, PFloat FNaN => true
  | PStr s, PStr t => String.eqb s t
  | PObjectId m, PObjectId n => m =? n
  | PList xs, PList ys =>
      (fix go (xs ys : list pyval) : bool :=
         match xs, ys with
         | [], [] => true
         | x :: xs', y :: ys' => key_eqb x y && go xs' ys'
         | _, _ => false
         end) xs ys
  | PDict kvs, PDict lvs =>
      (fix go (kvs lvs : list (pyval * pyval)) : bool :=
         match kvs, lvs with
         | [], [] => true
         | (k, x) :: kvs', (l, y) :: lvs' => key_eqb k l && key_eqb x y && go kvs' lvs'
         | _, _ => false
         end) kvs lvs
  | _, _ => false
  end.

(** The value of a field in an index entry: [null] when it is missing. *)
Definition field_value (doc : pyval) (f : string) : pyval :=
  match doc with
  | PDict kvs =>
      match find (fun kv => match fst kv with PStr s => String.eqb s f | _ => false end) kvs with
      | Some (_, v) => v
      | None => PNone
      end
  | _ => PNone
  end.

(** The unique indexes of each collection: the one on [_id] that every
    collection has, and the one that [create_indexes] puts on
    [("entity", "category")] of [items]. *)
Definition unique_indexes (k : kind) : list (list string) :=
  match k with
  | Items => [["_id"]; ["entity"; "category"]]
  | _ => [["_id"]]
  end.

Definition duplicate_key (k : kind) (coll : list pyval) (doc : pyval) : bool :=
  existsb (fun idx =>
             existsb (fun old => forallb (fun f => key_eqb (field_value old f) (field_value doc f)) idx)
                     coll)
          (unique_indexes k).

(** An ordered insert on the server: the documents are written one after
    the other until one of them breaks a unique index. *)
Fixpoint insert_ordered (k : kind) (coll docs : list pyval) : list pyval * option exn :=
  match docs with
  | [] => (coll, None)
  | d :: r =>
      if duplicate_key k coll d then (coll, Some BulkWriteError)
      else insert_ordered k (coll ++ [d]) r
  end.

(** [c_ref[key].insert_many(buffer[key])]. The list passed is the buffer
    itself, whose dicts receive their [_id] in place, whatever happens
    next. *)
Definition insert_many (k : kind) : M unit := fun st =>
  match buf st k with
  | [] => (Exc (TypeError "documents must be a non-empty list"), st)
  | docs =>
      let '(docs', n, err) := assign_ids docs (oid_next st) in
      let st1 := set_oid (set_buf st k docs') n in
      match err with
      | Some e => (Exc e, st1)
      | None =>
          match first_error docs' with
          | Some e => (Exc e, st1)
          | None =>
              let '(coll, err') := insert_ordered k (db st1 k) docs' in
              let st2 := set_db st1 k coll in
              match err' with
              | Some e => (Exc e, st2)
              | None => (Ok tt, st2)
              end
          end
      end
  end.

(** [log_c.insert_one(doc)]. The dict is built for the call and never
    read again, so the [_id] pymongo adds to it is not kept: [log_c] lists
    the documents as the program passes them. *)
Definition insert_one_log (doc : pyval) : M unit := fun st =>
  match bson_error doc with
  | Some e => (Exc e, st)
  | None => (Ok tt, set_log st (log_c st ++ [doc]))
  end.

(** [flush_buffer(buffer)]. *)
Fixpoint flush_kinds (ks : list kind) : M unit :=
  match ks with
  | [] => mret tt
  | k :: r =>
      fun st =>
        if (0 <? Z.of_nat (length (buf st k))) then
          (_ <- insert_many k ;;
           _ <- (fun st' => (Ok tt, set_buf st' k [])) ;;
           flush_kinds r) st
        else flush_kinds r st
  end.

Definition flush_buffer : M unit := flush_kinds kinds.

Definition BATCH_SIZE : Z := 100.

(** ** String helpers of the program *)

Definition py_truthy (rt : PyRuntime) (v : pyval) : bool :=
  match v with
  | PNone => false
  | PBool b => b
  | PInt z => negb (z =? 0)
  | PFloat f => negb (flt_eqz rt f 0)
  | PStr s => negb (String.eqb s "")
  | PList xs | PSet xs => negb (Nat.eqb (length xs) 0)
  | PDict kvs => negb (Nat.eqb (length kvs) 0)
  | PObjectId _ => true
  end.

(** [s.split("/")[-1]] *)
Fixpoint after_last_slash (s : string) (cur : string) : string :=
  match s with
  | EmptyString => cur
  | String c r =>
      if Ascii.eqb c "/"%char then after_last_slash r EmptyString
      else after_last_slash r ((cur ++ String c EmptyString)%string)
  end.

Definition py_split_last_slash (v : pyval) : res string :=
  match v with
  | PStr s => Ok (after_last_slash s EmptyString)
  | _ => Exc (AttributeError "split")
  end.

(** [s[1:]] *)
Definition drop_first_char (s : string) : string :=
  String.concat "" (tl (utf8_chars s)).

(** [s.lstrip("Q")] *)
Fixpoint lstrip_Q (s : string) : string :=
  match s with
  | String c r => if Ascii.eqb c "Q"%char then lstrip_Q r else s
  | EmptyString => EmptyString
  end.

(** [int(s)] for a [str]: surrounding whitespace, an optional sign, and
    decimal digits with single underscores between them; [None] is the
    [ValueError]. (Only ASCII whitespace and digits are considered.) *)
Definition is_int_space (b : Z) : bool :=
  in_range 9 13 b || in_range 28 32 b.

Fixpoint drop_space (l : list Z) : list Z :=
  match l with
  | b :: r => if is_int_space b then drop_space r else l
  | [] => []
  end.

Fixpoint int_digits (l : list Z) (acc : Z) (prev_digit : bool) : option Z :=
  match l with
  | [] => if prev_digit then Some acc else None
  | b :: r =>
      if is_digit b then int_digits r (acc * 10 + (b - 48)) true
      else if (b =? 95) && prev_digit then
        match r with
        | d :: _ => if is_digit d then int_digits r acc false else None
        | [] => None
        end
      else None
  end.

Definition py_int_of_str (s : string) : option Z :=
  let l := rev (drop_space (rev (drop_space (bytes_of s)))) in
  match l with
  | b :: r =>
      if b =? 45 then option_map Z.opp (int_digits r 0 false)
      else if b =? 43 then int_digits r 0 false
      else int_digits l 0 false
  | [] => None
  end.

(** ** The remote endpoints

    [tree_query root] is what [get(url, params=...).json()] gives for the
    tree query of [get_wikidata_item_tree_item_idsSPARQL([root],
    backward_properties=[279])]: the decoded JSON, a body that is not JSON
    ([.json()] raises [JSONDecodeError]), or a failure of the request.
    [superclass_query e] is the value returned by the inner
    [query_wikidata] of [retrieve_superclasses(e)]: the converted JSON
    result, or [None] once it has given up (it catches every exception). *)
Inductive tree_resp :=
| TreeJson (data : pyval)
| TreeNotJson
| TreeFail (e : exn).

Record Remote : Type := {
  tree_query : Z -> tree_resp;
  superclass_query : string -> option pyval
}.

Section Program.
Variable rt : PyRuntime.
Variable net : Remote.

Definition gi (x : pyval) (k : string) : res pyval := py_getitem rt x (PStr k).
Definition get_d (x : pyval) (k : string) (d : pyval) : res pyval := py_get rt x (PStr k) d.

(** ** Taxonomy construction *)

Fixpoint collect_ids (items : list pyval) (acc : list Z) : res (list Z) :=
  match items with
  | [] => Ok acc
  | item :: r =>
      let! wd := gi item "WD_id" in
      let! v := gi wd "value" in
      let! last := py_split_last_slash v in
      match py_int_of_str (lstrip_Q last) with
      | Some z => collect_ids r (acc ++ [z])
      | None => collect_ids r acc
      end
  end.

(** [get_wikidata_item_tree_item_idsSPARQL([root], backward_properties=[279])] *)
Definition get_wikidata_item_tree_item_idsSPARQL (root : Z) : res (list Z) :=
  match tree_query net root with
  | TreeFail e => Exc e
  | TreeNotJson => Exc JSONDecodeError
  | TreeJson data =>
      let! results := gi data "results" in
      let! bindings := gi results "bindings" in
      let! items := py_iter bindings in
      collect_ids items []
  end.

(** [try: x = get_...([root], ...) except json.decoder.JSONDecodeError: x = []] *)
Definition tree_or_empty (root : Z) : res (list Z) :=
  match get_wikidata_item_tree_item_idsSPARQL root with
  | Exc JSONDecodeError => Ok []
  | r => r
  end.

(** [set(a) - set(b)] on Python ints; iteration order of the result is
    CPython's business and is never used, only membership is. *)
Fixpoint zset (l : list Z) : list Z :=
  match l with
  | [] => []
  | x :: r => x :: filter (fun y => negb (x =? y)) (zset r)
  end.

Definition zdiff (a b : list Z) : list Z := filter (fun x => negb (existsb (Z.eqb x) b)) a.

Record Taxonomy := mkTaxonomy {
  geolocation_subclass : list Z;
  organization_subclass : list Z
}.

(** Lines 445-535 of [parse_wikidata_dump]. *)
Definition build_taxonomy : res Taxonomy :=
  let! organization := tree_or_empty 43229 in
  let! country := tree_or_empty 6256 in
  let! city := tree_or_empty 515 in
  let! capitals := tree_or_empty 5119 in
  let! admTerr := tree_or_empty 15916867 in
  let! family := tree_or_empty 17350442 in
  let! sportLeague := tree_or_empty 623109 in
  let! venue := tree_or_empty 8436 in
  let org := zdiff (zdiff (zdiff (zdiff (zdiff (zdiff (zdiff (zset organization)
               (zset country)) (zset city)) (zset capitals)) (zset admTerr))
               (zset family)) (zset sportLeague)) (zset venue) in
  let! geolocation := tree_or_empty 2221906 in
  let! food := tree_or_empty 2095 in
  let! edInst := tree_or_empty 2385804 in
  let! govAgency := tree_or_empty 327333 in
  let! intOrg := tree_or_empty 484652 in
  let! timeZone := tree_or_empty 12143 in
  let geo := zdiff (zdiff (zdiff (zdiff (zdiff (zset geolocation)
               (zset food)) (zset edInst)) (zset govAgency)) (zset intOrg))
               (zset timeZone) in
  Ok (mkTaxonomy geo org).

(** The roots of the fourteen closures, in the order [build_taxonomy]
    queries them, and the first failure among their closures. *)
Definition taxonomy_roots : list Z :=
  [43229; 6256; 515; 5119; 15916867; 17350442; 623109; 8436;
   2221906; 2095; 2385804; 327333; 484652; 12143].

Fixpoint first_tree_error (roots : list Z) : option exn :=
  match roots with
  | [] => None
  | root :: r =>
      match tree_or_empty root with
      | Exc e => Some e
      | Ok _ => first_tree_error r
      end
  end.

(** ** [retrieve_superclasses] *)

Fixpoint superclass_entries (xs : list pyval) (d : list (pyval * pyval))
  : res (list (pyval * pyval)) :=
  match xs with
  | [] => Ok d
  | result :: r =>
      let! sc := gi result "superclass" in
      let! scv := gi sc "value" in
      let! superclass_id := py_split_last_slash scv in
      let! lb := gi result "superclassLabel" in
      let! label := gi lb "value" in
      if hashable label then
        superclass_entries r (dset rt d label (PStr ("Q" ++ drop_first_char superclass_id)%string))
      else Exc (TypeError "unhashable type")
  end.

Definition process_superclasses (results : option pyval) : res (list pyval) :=
  match results with
  | Some res_v =>
      if py_truthy rt res_v then
        let! rs := gi res_v "results" in
        let! b := gi rs "bindings" in
        let! xs := py_iter b in
        let! d := superclass_entries xs [] in
        Ok (map snd d)
      else Ok []
  | None => Ok []
  end.

Definition retrieve_superclasses (entity_id : string) : M (list pyval) :=
  fun st => (process_superclasses (superclass_query net entity_id), add_call st entity_id).

Fixpoint superclasses_all (types_list : list string) : M (list pyval) :=
  match types_list with
  | [] => mret []
  | el :: r =>
      xs <- retrieve_superclasses el ;;
      ys <- superclasses_all r ;;
      mret (xs ++ ys)
  end.

(** ** [parse_data] *)

Fixpoint collect_labels (labels : pyval) (langs : list pyval) (acc : list (pyval * pyval))
  : res (list (pyval * pyval)) :=
  match langs with
  | [] => Ok acc
  | lang :: r =>
      let! l := py_getitem rt labels lang in
      let! v := gi l "value" in
      if hashable lang then collect_labels labels r (dset rt acc lang v)
      else Exc (TypeError "unhashable type")
  end.

Fixpoint map_res {A B} (f : A -> res B) (xs : list A) : res (list B) :=
  match xs with
  | [] => Ok []
  | x :: r => let! y := f x in let! ys := map_res f r in Ok (y :: ys)
  end.

Fixpoint collect_aliases (aliases : pyval) (langs : list pyval) (acc : list (pyval * pyval))
  : res (list (pyval * pyval)) :=
  match langs with
  | [] => Ok acc
  | lang :: r =>
      if hashable lang then
        let! a := py_getitem rt aliases lang in
        let! xs := py_iter a in
        let! vals := map_res (fun alias => gi alias "value") xs in
        if forallb hashable vals then
          collect_aliases aliases r (dset rt acc lang (PList (py_dedup rt vals)))
        else Exc (TypeError "unhashable type")
      else Exc (TypeError "unhashable type")
  end.

Fixpoint any_P279 (preds : list pyval) : bool :=
  match preds with
  | [] => false
  | p :: r => py_eq rt p (PStr "P279") || any_P279 r
  end.

(** [claim.get("mainsnak", {}).get("datavalue", {}).get("value", {}).get("numeric-id")] *)
Definition claim_numeric_id (claim : pyval) : res pyval :=
  let! mainsnak := get_d claim "mainsnak" (PDict []) in
  let! datavalue := get_d mainsnak "datavalue" (PDict []) in
  let! v := get_d datavalue "value" (PDict []) in
  get_d v "numeric-id" PNone.

(** The branch of the classification for one [numeric_id]. *)
Definition ner_branch (geo org : list pyval) (numeric_id : pyval) : res string :=
  if py_eq rt numeric_id (PInt 5) then Ok "PERS"
  else
    let! in_geo := py_in rt numeric_id (PList geo) in
    if in_geo then Ok "LOC"
    else
      let! in_org := py_in rt numeric_id (PList org) in
      if in_org then Ok "ORG" else Ok "OTHERS".

(** [ner_counter[t] += 1]: the keys of the [Counter], in insertion order. *)
Definition counter_add (c : list string) (t : string) : list string :=
  if existsb (String.eqb t) c then c else c ++ [t].

Fixpoint count_ner (geo org : list pyval) (claims : list pyval) (c : list string)
  : res (list string) :=
  match claims with
  | [] => Ok c
  | claim :: r =>
      let! nid := claim_numeric_id claim in
      let! t := ner_branch geo org nid in
      count_ner geo org r (counter_add c t)
  end.

(** [for ner_type in ner_counter: if ner_type == "ORG": NERtype.append("ORG") ...] *)
Fixpoint ner_from_counter (c : list string) : list string :=
  match c with
  | [] => []
  | t :: r =>
      (if String.eqb t "ORG" then ["ORG"]
       else if String.eqb t "PERS" then ["PERS"]
       else if String.eqb t "LOC" then ["LOC"]
       else if String.eqb t "OTHERS" then ["OTHERS"] else []) ++ ner_from_counter r
  end.

Definition explicit_type (claim : pyval) : res string :=
  let! nid := claim_numeric_id claim in
  Ok ("Q" ++ py_str rt nid)%string.

(** What lines 265-352 leave in the local variables that are read later;
    [pre_types_list] is [None] when [types_list] was never assigned. *)
Record Pre := mkPre {
  pre_entity : pyval;
  pre_labels : pyval;
  pre_description : pyval;
  pre_sitelinks : pyval;
  pre_popularity : Z;
  pre_all_labels : list (pyval * pyval);
  pre_all_aliases : list (pyval * pyval);
  pre_category : string;
  pre_NERtype : list string;
  pre_types_list : option (list string)
}.

(** Lines 308-352: the NER tags and the explicit types, computed only for
    [item.get("type") == "item" and "claims" in item]. *)
Definition ner_and_types (item : pyval) (geo org : list pyval)
  : res (list string * option (list string)) :=
  let! ty := get_d item "type" PNone in
  let! cond := (if py_eq rt ty (PStr "item") then py_in rt (PStr "claims") item else Ok false) in
  if cond then
    let! claims := gi item "claims" in
    let! p31v := get_d claims "P31" (PList []) in
    let! n := py_len p31v in
    let! ner :=
      (if negb (n =? 0) then
         let! p31_claims := py_iter p31v in
         let! c := count_ner geo org p31_claims [] in
         Ok (ner_from_counter c)
       else Ok []) in
    let! claims2 := gi item "claims" in
    let! p31v2 := get_d claims2 "P31" (PList []) in
    let! p31_claims2 := py_iter p31v2 in
    let! types_list := map_res explicit_type p31_claims2 in
    Ok (ner, Some types_list)
  else Ok ([], None).

(** Lines 265-352. *)
Definition parse_pre (item : pyval) (geo org : list pyval) : res Pre :=
  let! entity := gi item "id" in
  let! labels := get_d item "labels" (PDict []) in
  let! aliases := get_d item "aliases" (PDict []) in
  let! en := get_d labels "en" (PDict []) in
  let! english_label := get_d en "value" (PStr "") in
  let! descriptions := get_d item "descriptions" (PDict []) in
  let! description := get_d descriptions "en" (PDict []) in
  let! sitelinks := get_d item "sitelinks" (PDict []) in
  let! nsl := py_len sitelinks in
  let popularity := if 0 <? nsl then nsl else 1 in
  let! langs := py_iter labels in
  let! all_labels := collect_labels labels langs [] in
  let! alangs := py_iter aliases in
  let! all_aliases := collect_aliases aliases alangs [] in
  let! claims := gi item "claims" in
  let! preds := py_iter claims in
  let found := any_P279 preds in
  let category := if found then "type" else "entity" in
  let! first := py_getitem rt entity (PInt 0) in
  let category := if py_eq rt first (PStr "P") then "predicate" else category in
  let! nt := ner_and_types item geo org in
  Ok (mkPre entity labels description sitelinks popularity all_labels all_aliases
            category (fst nt) (snd nt)).

(** Lines 363-374, without the [try]: the [URLs] dict. *)
Definition url_extraction (item labels sitelinks : pyval) : res (list (pyval * pyval)) :=
  let! en := get_d labels "en" (PDict []) in
  let! lang := get_d en "language" (PStr "") in
  let! wd_id := gi item "id" in
  let! en' := get_d labels "en" (PDict []) in
  let! wp_id := get_d en' "value" (PStr "") in
  let! wikidata := str_concat "http://www.wikidata.org/wiki/" wd_id in
  let! head := str_concat "http://" lang in
  let! head' := (match head with
                 | PStr h => Ok (PStr (h ++ ".wikipedia.org/wiki/")%string)
                 | _ => Exc (TypeError "")
                 end) in
  let! enwiki := gi sitelinks "enwiki" in
  let! title := gi enwiki "title" in
  let! title' := py_replace_space title in
  let! wikipedia := (match head', title' with
                     | PStr h, PStr t => Ok (PStr (h ++ t)%string)
                     | _, _ => Exc (TypeError "")
                     end) in
  let! enwiki2 := gi sitelinks "enwiki" in
  let! title2 := gi enwiki2 "title" in
  let! title2' := py_replace_space title2 in
  let! dbpedia := str_concat "http://dbpedia.org/resource/" title2' in
  Ok [(PStr "wikidata", wikidata); (PStr "wikipedia", wikipedia); (PStr "dbpedia", dbpedia)].

Definition DATATYPES_MAPPINGS : pyval :=
  PDict [(PStr "external-id", PStr "STRING"); (PStr "quantity", PStr "NUMBER");
         (PStr "globe-coordinate", PStr "STRING"); (PStr "string", PStr "STRING");
         (PStr "monolingualtext", PStr "STRING"); (PStr "commonsMedia", PStr "STRING");
         (PStr "time", PStr "DATETIME"); (PStr "url", PStr "STRING");
         (PStr "geo-shape", PStr "GEOSHAPE"); (PStr "math", PStr "MATH");
         (PStr "musical-notation", PStr "MUSICAL_NOTATION");
         (PStr "tabular-data", PStr "TABULAR_DATA")].

(** [DATATYPES = list(set(DATATYPES_MAPPINGS.values()))]; the order of a
    set of strings varies between CPython runs, one order is fixed here. *)
Definition DATATYPES : list string :=
  ["STRING"; "NUMBER"; "DATETIME"; "GEOSHAPE"; "MATH"; "MUSICAL_NOTATION"; "TABULAR_DATA"].

Definition skip_set : pyval :=
  PSet [PStr "wikibase-lexeme"; PStr "wikibase-form"; PStr "wikibase-sense"].

Definition check_skip (obj datatype : pyval) : res bool :=
  let! temp := py_get rt obj (PStr "mainsnak") obj in
  let! has := py_in rt (PStr "datavalue") temp in
  if negb has then Ok true else py_in rt datatype skip_set.

Definition value_keys : pyval :=
  PDict [(PStr "quantity", PStr "amount"); (PStr "monolingualtext", PStr "text");
         (PStr "time", PStr "time")].

Definition get_value (obj datatype : pyval) : res pyval :=
  let! temp := py_get rt obj (PStr "mainsnak") obj in
  if py_eq rt datatype (PStr "globe-coordinate") then
    let! dv := gi temp "datavalue" in
    let! v := gi dv "value" in
    let! latitude := gi v "latitude" in
    let! dv' := gi temp "datavalue" in
    let! v' := gi dv' "value" in
    let! longitude := gi v' "longitude" in
    Ok (PStr (py_str rt latitude ++ "," ++ py_str rt longitude)%string)
  else
    let! has_key := py_in rt datatype value_keys in
    if has_key then
      let! key := py_getitem rt value_keys datatype in
      let! dv := gi temp "datavalue" in
      let! v := gi dv "value" in
      py_getitem rt v key
    else
      let! dv := gi temp "datavalue" in
      gi dv "value".

(** [if k not in d: d[k] = []] followed by [d[k].append(v)]. *)
Definition dict_append (kvs : list (pyval * pyval)) (k v : pyval) : res (list (pyval * pyval)) :=
  let! present := py_in rt k (PDict kvs) in
  if present then
    match dlookup rt kvs k with
    | Some (PList xs) => Ok (dset rt kvs k (PList (xs ++ [v])))
    | _ => Exc (AttributeError "append")
    end
  else Ok (dset rt kvs k (PList [v])).

(** The dicts [types["P31"]], [objects] and [literals] as lines 410-433
    fill them. *)
Record Acc := mkAcc {
  acc_types : list pyval;
  acc_objects : list (pyval * pyval);
  acc_literals : list (pyval * pyval)
}.

Definition acc0 : Acc :=
  mkAcc [] [] (map (fun d => (PStr d, PDict [])) DATATYPES).

Definition claim_step (predicate obj : pyval) (a : Acc) : res Acc :=
  let! ms := gi obj "mainsnak" in
  let! datatype := gi ms "datatype" in
  let! skip := check_skip obj datatype in
  if skip then Ok a
  else if py_eq rt datatype (PStr "wikibase-item") || py_eq rt datatype (PStr "wikibase-property") then
    let! ms' := gi obj "mainsnak" in
    let! dv := gi ms' "datavalue" in
    let! v := gi dv "value" in
    let! value := gi v "id" in
    let types' := if py_eq rt predicate (PStr "P31") || py_eq rt predicate (PStr "P106")
                  then acc_types a ++ [value] else acc_types a in
    let! objects' := dict_append (acc_objects a) value predicate in
    Ok (mkAcc types' objects' (acc_literals a))
  else
    let! value := get_value obj datatype in
    let! cat := py_getitem rt DATATYPES_MAPPINGS datatype in
    let! lit := py_getitem rt (PDict (acc_literals a)) cat in
    match lit with
    | PDict lkvs =>
        let! lkvs' := dict_append lkvs predicate value in
        Ok (mkAcc (acc_types a) (acc_objects a) (dset rt (acc_literals a) cat (PDict lkvs')))
    | _ => Exc (AttributeError "")
    end.

Fixpoint claims_objs (predicate : pyval) (objs : list pyval) (a : Acc) : res Acc :=
  match objs with
  | [] => Ok a
  | obj :: r => let! a' := claim_step predicate obj a in claims_objs predicate r a'
  end.

Fixpoint claims_loop (predicates : pyval) (preds : list pyval) (a : Acc) : res Acc :=
  match preds with
  | [] => Ok a
  | p :: r =>
      let! objsv := py_getitem rt predicates p in
      let! objs := py_iter objsv in
      let! a' := claims_objs p objs a in
      claims_loop predicates r a'
  end.

(** The four derived records of one entity. *)
Record Join := mkJoin {
  j_items : pyval;
  j_objects : pyval;
  j_literals : pyval;
  j_types : pyval
}.

Definition join_of (k : kind) (j : Join) : pyval :=
  match k with
  | Items => j_items j | Objects => j_objects j
  | Literals => j_literals j | Types => j_types j
  end.

(** Lines 354-433, once [types_list] is bound. *)
Definition parse_post (item : pyval) (i : Z) (p : Pre) (types_list : list string)
  (total : list pyval) : res Join :=
  let extended_WDtypes := PSet (py_dedup rt total) in
  let url_dict := match url_extraction item (pre_labels p) (pre_sitelinks p) with
                  | Exc JSONDecodeError => Ok None
                  | Exc e => Exc e
                  | Ok u => Ok (Some u)
                  end in
  let! url_dict := url_dict in
  let! url_dict := (match url_dict with
                    | Some u => Ok u
                    | None => Exc (UnboundLocalError "url_dict")
                    end) in
  let! predicates := gi item "claims" in
  let! preds := py_iter predicates in
  let! a := claims_loop predicates preds acc0 in
  let entity := pre_entity p in
  let types := PDict [(PStr "P31", PList (acc_types a))] in
  let objects := PDict (acc_objects a) in
  let literals := PDict (acc_literals a) in
  Ok (mkJoin
        (PDict [(PStr "id_entity", PInt i); (PStr "entity", entity);
                (PStr "description", pre_description p);
                (PStr "labels", PDict (pre_all_labels p));
                (PStr "aliases", PDict (pre_all_aliases p));
                (PStr "types", types); (PStr "popularity", PInt (pre_popularity p));
                (PStr "kind", PStr (pre_category p));
                (PStr "NERtype", PList (map PStr (pre_NERtype p)));
                (PStr "URLs", PDict url_dict);
                (PStr "extended_WDtypes", extended_WDtypes);
                (PStr "explicit_WDtypes", PList (map PStr types_list))])
        (PDict [(PStr "id_entity", PInt i); (PStr "entity", entity); (PStr "objects", objects)])
        (PDict [(PStr "id_entity", PInt i); (PStr "entity", entity); (PStr "literals", literals)])
        (PDict [(PStr "id_entity", PInt i); (PStr "entity", entity); (PStr "types", types)])).

(** Lines 265-433: the records of one entity. The only effect is the
    remote superclass lookups. *)
Definition build_join (item : pyval) (i : Z) (tax : Taxonomy) : M Join :=
  let geo := map PInt (geolocation_subclass tax) in
  let org := map PInt (organization_subclass tax) in
  p <- lift (parse_pre item geo org) ;;
  types_list <- lift (match pre_types_list p with
                      | Some l => Ok l
                      | None => Exc (UnboundLocalError "types_list")
                      end) ;;
  total <- superclasses_all types_list ;;
  lift (parse_post item i p types_list total).

(** Lines 435-439. *)
Definition emit (j : Join) : M unit :=
  fun st =>
    let st1 := fold_left (fun s k => set_buf s k (buf s k ++ [join_of k j])) kinds st in
    if Z.of_nat (length (buf st1 Items)) =? BATCH_SIZE then flush_buffer st1
    else (Ok tt, st1).

Definition parse_data (item : pyval) (i : Z) (tax : Taxonomy) : M unit :=
  j <- build_join item i tax ;;
  emit j.

(** ** The main loop of [parse_wikidata_dump] *)

(** [line[:-2]] *)
Definition strip2 (line : string) : string := substring 0 (String.length line - 2) line.

(** The [except Exception as e] handler: it reads the loop variable
    [item], which may still hold the previous line's entity, or be
    unbound. *)
Definition log_error (e : exn) : M unit := fun st =>
  match item_var st with
  | None => (Exc (UnboundLocalError "item"), st)
  | Some item =>
      match gi item "id" with
      | Exc e' => (Exc e', st)
      | Ok id =>
          insert_one_log (PDict [(PStr "entity", id); (PStr "error", PStr (exn_str rt e));
                                 (PStr "traceback_str", PStr (format_exc rt e))]) st
      end
  end.

(** The body of the [try] for one line (the progress bar is not
    modelled). *)
Definition line_body (tax : Taxonomy) (i : Z) (line : string) : M unit := fun st =>
  match json_loads (strip2 line) with
  | Exc e => (Exc e, st)
  | Ok item =>
      let st1 := update_average_size (set_item_var st item) (Z.of_nat (String.length line)) in
      parse_data item i tax st1
  end.

Definition process_line (tax : Taxonomy) (i : Z) (line : string) : M unit := fun st =>
  match line_body tax i line st with
  | (Ok _, st') => (Ok tt, st')
  | (Exc JSONDecodeError, st') => (Ok tt, st')
  | (Exc e, st') => log_error e st'
  end.

Fixpoint run_lines (tax : Taxonomy) (i : Z) (lines : list string) : M unit :=
  match lines with
  | [] => mret tt
  | l :: r => _ <- process_line tax i l ;; run_lines tax (i + 1) r
  end.

Definition final_flush : M unit := fun st =>
  if 0 <? Z.of_nat (length (buf st Items)) then flush_buffer st else (Ok tt, st).

(** [parse_wikidata_dump()] over the lines of the archive; an exception
    in the result is an aborted run. *)
Definition parse_wikidata_dump (lines : list string) : M unit :=
  tax <- lift build_taxonomy ;;
  _ <- run_lines tax 0 lines ;;
  final_flush.

End Program.

(** ** [main] *)

(** What [main()] ends with: an exception escaping [parse_wikidata_dump()],
    the [ZeroDivisionError] of [total_size_processed /
    num_entities_processed], or the printed average as the pair of its
    numerator and denominator. *)
Inductive main_outcome :=
| MainRaised (e : exn)
| MainZeroDivisionError
| MainPrinted (total n : Z).

Definition main (rt : PyRuntime) (net : Remote) (lines : list string) (st : St)
  : main_outcome * St :=
  match parse_wikidata_dump rt net lines st with
  | (Exc e, st') => (MainRaised e, st')
  | (Ok _, st') =>
      if num_entities_processed st' =? 0 then (MainZeroDivisionError, st')
      else (MainPrinted (total_size_processed st') (num_entities_processed st'), st')
  end.

(** ** The retry loop [query_wikidata] of [retrieve_superclasses]

    [answer n] is what the [n]-th attempt of [sparql_client.query().convert()]
    gives: the converted result, or an exception with its [str(e)]. The
    loop returns its result, the number of attempts made and the seconds
    spent in [time.sleep]. *)
Inductive sparql_answer :=
| SparqlResult (v : pyval)
| SparqlError (msg : string).

Fixpoint query_wikidata_from (answer : nat -> sparql_answer) (attempt left : nat) (delay : Z)
  : option pyval * nat * Z :=
  match left with
  | O => (None, 0%nat, 0)
  | S l =>
      match answer attempt with
      | SparqlResult v => (Some v, 1%nat, 0)
      | SparqlError msg =>
          if str_contains msg "429" then
            let '(r, n, t) := query_wikidata_from answer (S attempt) l delay in
            (r, S n, delay + t)
          else (None, 1%nat, 0)
      end
  end.

(** [query_wikidata(sparql_client, query, retries, delay)] *)
Definition query_wikidata (answer : nat -> sparql_answer) (retries : nat) (delay : Z)
  : option pyval * nat * Z :=
  query_wikidata_from answer 0 retries delay.

(** * Concrete runtimes, endpoints and dump lines

    Inputs on which the definitions above are evaluated. *)

Definition nl : string := String (ascii_of_nat 10) EmptyString.

(** A runtime whose floats are compared digit by digit (enough for the
    normalised decimals used here). *)
Definition rt_ex : PyRuntime := {|
  flt_eq := fun a b =>
    match a, b with
    | FDec n1 m1 e1, FDec n2 m2 e2 => Bool.eqb n1 n2 && (m1 =? m2) && (e1 =? e2)
    | FInf n1, FInf n2 => Bool.eqb n1 n2
    | _, _ => false
    end;
  flt_eqz := fun f z =>
    match f with
    | FDec n m e => (e =? 0) && ((if n then - m else m) =? z)
    | _ => false
    end;
  repr_other := fun _ => "<object>";
  exn_str := fun _ => "error";
  format_exc := fun _ => "Traceback" |}.

Definition entity_uri (q : string) : pyval :=
  PStr ("http://www.wikidata.org/entity/" ++ q)%string.

(** The JSON of a SPARQL answer to the tree query. *)
Definition tree_binding (q : string) : pyval :=
  PDict [(PStr "WD_id", PDict [(PStr "type", PStr "uri"); (PStr "value", entity_uri q)])].

Definition sparql_json (bindings : list pyval) : pyval :=
  PDict [(PStr "head", PDict [(PStr "vars", PList [PStr "WD_id"])]);
         (PStr "results", PDict [(PStr "bindings", PList bindings)])].

Definition superclass_binding (q label : string) : pyval :=
  PDict [(PStr "superclass", PDict [(PStr "value", entity_uri q)]);
         (PStr "superclassLabel", PDict [(PStr "value", PStr label)])].

(** Every tree query answers with no bindings, every superclass query
    gives up. *)
Definition net_empty : Remote := {|
  tree_query := fun _ => TreeJson (sparql_json []);
  superclass_query := fun _ => None |}.

(** Overlapping trees: the organisation tree contains a country and the
    geolocation tree contains a food. *)
Definition net_tax : Remote := {|
  tree_query := fun r =>
    if r =? 43229 then TreeJson (sparql_json (map tree_binding ["Q43229"; "Q6256"; "Q4830453"]))
    else if r =? 6256 then TreeJson (sparql_json (map tree_binding ["Q6256"; "Q3624078"]))
    else if r =? 2221906 then TreeJson (sparql_json (map tree_binding ["Q2221906"; "Q515"; "Q2095"]))
    else if r =? 2095 then TreeJson (sparql_json (map tree_binding ["Q2095"]))
    else if r =? 12143 then TreeNotJson
    else TreeJson (sparql_json []);
  superclass_query := fun e =>
    if String.eqb e "Q5" then
      Some (PDict [(PStr "results", PDict [(PStr "bindings",
              PList [superclass_binding "Q5" "human"; superclass_binding "Q215627" "person"])])])
    else None |}.

(** The tree endpoint cannot be reached. *)
Definition net_down : Remote := {|
  tree_query := fun _ => TreeFail (RequestException "ConnectionError");
  superclass_query := fun _ => None |}.

(** The tree endpoint fails on the last closure only, the time zones. *)
Definition net_late_down : Remote := {|
  tree_query := fun r =>
    if r =? 12143 then TreeFail (RequestException "ConnectionError")
    else TreeJson (sparql_json []);
  superclass_query := fun _ => None |}.

(** The JSON text of a person: one [P31] statement with value [Q5]. *)
Definition human_json (id label : string) : string :=
  dq ("{'type': 'item', 'id': '" ++ id ++ "', " ++
      "'labels': {'en': {'language': 'en', 'value': '" ++ label ++ "'}}, " ++
      "'aliases': {'en': [{'language': 'en', 'value': 'A'}, {'language': 'en', 'value': 'A'}]}, " ++
      "'descriptions': {'en': {'language': 'en', 'value': 'person'}}, " ++
      "'sitelinks': {'enwiki': {'site': 'enwiki', 'title': '" ++ label ++ "'}}, " ++
      "'claims': {'P31': [{'mainsnak': {'snaktype': 'value', 'property': 'P31', " ++
      "'datatype': 'wikibase-item', 'datavalue': {'value': {'entity-type': 'item', " ++
      "'numeric-id': 5, 'id': 'Q5'}, 'type': 'wikibase-entityid'}}, " ++
      "'type': 'statement', 'rank': 'normal'}]}}")%string.

(** A line of the dump: the entity, a comma and a newline. *)
Definition entity_line (id label : string) : string :=
  (human_json id label ++ "," ++ nl)%string.

Definition q42_line : string := entity_line "Q42" "Douglas Adams".
Definition q80_line : string := entity_line "Q80" "Tim Berners-Lee".

(** The last entity of a dump, with no comma after it. *)
Definition last_line : string := (human_json "Q42" "Douglas Adams" ++ nl)%string.

Definition number_line : string := ("123" ++ nl)%string.

(** Two bytes that are not UTF-8, then a comma and a newline. *)
Definition undecodable_line : string :=
  String (ascii_of_nat 128) (String (ascii_of_nat 128) ("," ++ nl)).

(** Entities without an ["id"]. *)
Definition noid_item_line : string := (dq "{'type': 'item', 'claims': {}}" ++ "," ++ nl)%string.
Definition noid_property_line : string := (dq "{'type': 'property', 'labels': {}}" ++ "," ++ nl)%string.

(** The value [json.loads] gives for [human_json id label]. *)
Definition q5_statement : pyval :=
  PDict [(PStr "mainsnak",
          PDict [(PStr "snaktype", PStr "value"); (PStr "property", PStr "P31");
                 (PStr "datatype", PStr "wikibase-item");
                 (PStr "datavalue",
                  PDict [(PStr "value", PDict [(PStr "entity-type", PStr "item");
                                               (PStr "numeric-id", PInt 5); (PStr "id", PStr "Q5")]);
                         (PStr "type", PStr "wikibase-entityid")])]);
         (PStr "type", PStr "statement"); (PStr "rank", PStr "normal")].

Definition lang_value (v : string) : pyval :=
  PDict [(PStr "language", PStr "en"); (PStr "value", PStr v)].

Definition human_item (id label : string) : pyval :=
  PDict [(PStr "type", PStr "item"); (PStr "id", PStr id);
         (PStr "labels", PDict [(PStr "en", lang_value label)]);
         (PStr "aliases", PDict [(PStr "en", PList [lang_value "A"; lang_value "A"])]);
         (PStr "descriptions", PDict [(PStr "en", lang_value "person")]);
         (PStr "sitelinks", PDict [(PStr "enwiki", PDict [(PStr "site", PStr "enwiki");
                                                           (PStr "title", PStr label)])]);
         (PStr "claims", PDict [(PStr "P31", PList [q5_statement])])].

Definition tax_empty : Taxonomy := mkTaxonomy [] [].

(** The roots whose trees [build_taxonomy] subtracts from the organisation
    tree and from the geolocation tree. *)
Definition org_exclusion_roots : list Z :=
  [6256; 515; 5119; 15916867; 17350442; 623109; 8436].
Definition geo_exclusion_roots : list Z := [2095; 2385804; 327333; 484652; 12143].

(** The four NER tags. *)
Definition is_tag (t : string) : Prop := t = "PERS" \/ t = "LOC" \/ t = "ORG" \/ t = "OTHERS".

(** ** Bookkeeping used by the statements below *)

Definition other_state (st st' : St) : Prop :=
  log_c st' = log_c st /\ total_size_processed st' = total_size_processed st /\
  num_entities_processed st' = num_entities_processed st /\
  item_var st' = item_var st /\ superclass_calls st' = superclass_calls st.

(** Everything but the superclass lookups made. *)
Definition records_kept (st st' : St) : Prop :=
  (forall k, buf st' k = buf st k /\ db st' k = db st k) /\
  log_c st' = log_c st /\ total_size_processed st' = total_size_processed st /\
  num_entities_processed st' = num_entities_processed st /\ item_var st' = item_var st.

(** Whether [json.loads(line[:-2])] returns, and the sums
    [update_average_size] accumulates over such lines. *)
Definition decodes (line : string) : bool :=
  match json_loads (strip2 line) with Ok _ => true | Exc _ => false end.

Definition count_decoded (lines : list string) : Z :=
  Z.of_nat (length (filter decodes lines)).

Definition size_decoded (lines : list string) : Z :=
  fold_right (fun l acc => (if decodes l then Z.of_nat (String.length l) else 0) + acc) 0 lines.

(** * Proofs *)

(** Peels the successful binds off a hypothesis [rbind r f = Ok v]. *)
Ltac res_inv H :=
  repeat match type of H with
  | rbind ?r _ = _ =>
      let E := fresh "E" in
      destruct r eqn:E; cbn [rbind] in H; [|discriminate H]
  end.

(** ** The decoder *)

Example json_loads_ex1 :
  json_loads (dq "{'a': [1, -2.5e1, true, null], 'b': 'x\u00e9', 'a': 7}") =
  Ok (PDict [(PStr "a", PInt 7);
             (PStr "b", PStr ("x" ++ String (byte_of 195) (String (byte_of 169) EmptyString))%string)]).
Proof. vm_compute. reflexivity. Qed.

Example json_loads_ex2 : json_loads (dq "{'a': 1") = Exc JSONDecodeError.
Proof. vm_compute. reflexivity. Qed.

Example json_loads_ex3 : json_loads "12" = Ok (PInt 12).
Proof. vm_compute. reflexivity. Qed.

(** ** Sets of ids *)

Lemma zset_In : forall l x, In x (zset l) <-> In x l.
Proof.
  induction l as [|a l IH]; simpl; intros x; [tauto|].
  rewrite filter_In, IH. split.
  - intros [->|[H _]]; auto.
  - intros [->|H]; [auto|].
    destruct (Z.eq_dec a x) as [->|Hne]; [auto|].
    right; split; [exact H|]. apply negb_true_iff, Z.eqb_neq; exact Hne.
Qed.

Lemma zdiff_In : forall a b x, In x (zdiff a b) <-> In x a /\ ~ In x b.
Proof.
  intros a b x; unfold zdiff; rewrite filter_In, negb_true_iff, <- not_true_iff_false,
    existsb_exists.
  split; intros [H1 H2]; split; auto.
  - intros Hb; apply H2; exists x; split; [exact Hb | apply Z.eqb_refl].
  - intros [y [Hy Hxy]]; apply Z.eqb_eq in Hxy; subst; auto.
Qed.

Lemma zdiff_noop : forall a b, (forall x, In x a -> ~ In x b) -> zdiff a b = a.
Proof.
  induction a as [|x a IH]; intros b H; simpl; [reflexivity|].
  destruct (existsb (Z.eqb x) b) eqn:E; simpl.
  - exfalso. apply existsb_exists in E. destruct E as [y [Hy Hxy]].
    apply Z.eqb_eq in Hxy; subst. apply (H y); simpl; auto.
  - f_equal. apply IH. intros y Hy. apply H; simpl; auto.
Qed.

Lemma tree_or_empty_ext : forall rt net net' root,
  tree_query net' = tree_query net -> tree_or_empty rt net' root = tree_or_empty rt net root.
Proof.
  intros rt net net' root Hq.
  unfold tree_or_empty, get_wikidata_item_tree_item_idsSPARQL; rewrite Hq; reflexivity.
Qed.

Lemma py_getitem_not_decode : forall rt x k, py_getitem rt x k <> Exc JSONDecodeError.
Proof.
  intros rt x k; unfold py_getitem.
  destruct x; try discriminate;
    repeat match goal with
           | |- context [match ?t with _ => _ end] => destruct t
           end; discriminate.
Qed.

(** ** Strings *)

Lemma substring_app : forall s t, substring 0 (String.length s) (s ++ t) = s.
Proof.
  induction s as [|c s IH]; intros t; simpl.
  - destruct t; reflexivity.
  - rewrite IH; reflexivity.
Qed.

Lemma length_app_str : forall s t, String.length (s ++ t) = (String.length s + String.length t)%nat.
Proof. induction s as [|c s IH]; intros t; simpl; [reflexivity | rewrite IH; reflexivity]. Qed.

Lemma strip2_app : forall s a b, strip2 (s ++ String a (String b EmptyString)) = s.
Proof.
  intros s a b; unfold strip2. rewrite length_app_str; simpl.
  replace (String.length s + 2 - 2)%nat with (String.length s) by lia.
  apply substring_app.
Qed.

(** ** Taxonomy construction *)

Ltac same_tree :=
  match goal with
  | Hids : tree_or_empty ?a ?b ?r = Ok ?ids, E : tree_or_empty ?a ?b ?r = Ok ?l |- _ =>
      assert_fails (constr_eq ids l); rewrite Hids in E; injection E as <-
  end.

(** C9: each taxonomy set is exactly the root's tree minus the trees of its
    exclusion roots, so no id of an exclusion tree is a member; subtracting
    an exclusion tree once more changes nothing; and the taxonomy depends
    only on the tree responses, so the same responses give the same sets. *)
Theorem C9_taxonomy_exclusions : forall rt net tax,
  build_taxonomy rt net = Ok tax ->
  (forall x, In x (organization_subclass tax) <->
     (exists ids, tree_or_empty rt net 43229 = Ok ids /\ In x ids) /\
     (forall r ids, In r org_exclusion_roots -> tree_or_empty rt net r = Ok ids -> ~ In x ids)) /\
  (forall x, In x (geolocation_subclass tax) <->
     (exists ids, tree_or_empty rt net 2221906 = Ok ids /\ In x ids) /\
     (forall r ids, In r geo_exclusion_roots -> tree_or_empty rt net r = Ok ids -> ~ In x ids)) /\
  (forall r ids, In r org_exclusion_roots -> tree_or_empty rt net r = Ok ids ->
     zdiff (organization_subclass tax) (zset ids) = organization_subclass tax) /\
  (forall r ids, In r geo_exclusion_roots -> tree_or_empty rt net r = Ok ids ->
     zdiff (geolocation_subclass tax) (zset ids) = geolocation_subclass tax) /\
  (forall net', tree_query net' = tree_query net -> build_taxonomy rt net' = Ok tax).
Proof.
  intros rt net tax H.
  assert (Hdet : forall net', tree_query net' = tree_query net ->
                 build_taxonomy rt net' = build_taxonomy rt net).
  { intros net' Hq. unfold build_taxonomy.
    repeat rewrite (tree_or_empty_ext rt net net' _ Hq). reflexivity. }
  assert (Horg : forall x, In x (organization_subclass tax) <->
     (exists ids, tree_or_empty rt net 43229 = Ok ids /\ In x ids) /\
     (forall r ids, In r org_exclusion_roots -> tree_or_empty rt net r = Ok ids -> ~ In x ids)).
  { unfold build_taxonomy in H. res_inv H. injection H as <-. intros x; simpl.
    rewrite !zdiff_In, !zset_In. split.
    - intros [[[[[[[Ho H1] H2] H3] H4] H5] H6] H7]. split; [eauto|].
      intros r ids Hr Hids Hin.
      repeat destruct Hr as [<-|Hr]; try contradiction; same_tree; contradiction.
    - intros [[ids [Hids Hin]] Hx]. injection Hids as <-.
      repeat split; try assumption;
        (eapply Hx; [| eassumption]; simpl; tauto). }
  assert (Hgeo : forall x, In x (geolocation_subclass tax) <->
     (exists ids, tree_or_empty rt net 2221906 = Ok ids /\ In x ids) /\
     (forall r ids, In r geo_exclusion_roots -> tree_or_empty rt net r = Ok ids -> ~ In x ids)).
  { unfold build_taxonomy in H. res_inv H. injection H as <-. intros x; simpl.
    rewrite !zdiff_In, !zset_In. split.
    - intros [[[[[Ho H1] H2] H3] H4] H5]. split; [eauto|].
      intros r ids Hr Hids Hin.
      repeat destruct Hr as [<-|Hr]; try contradiction; same_tree; contradiction.
    - intros [[ids [Hids Hin]] Hx]. injection Hids as <-.
      repeat split; try assumption;
        (eapply Hx; [| eassumption]; simpl; tauto). }
  split; [exact Horg|]. split; [exact Hgeo|]. split; [|split; [|intros net' Hq; rewrite Hdet; assumption]].
  - intros r ids Hr Hids. apply zdiff_noop. intros x Hx. rewrite zset_In.
    apply Horg in Hx. destruct Hx as [_ Hx]. exact (Hx r ids Hr Hids).
  - intros r ids Hr Hids. apply zdiff_noop. intros x Hx. rewrite zset_In.
    apply Hgeo in Hx. destruct Hx as [_ Hx]. exact (Hx r ids Hr Hids).
Qed.

(** C9, on trees that overlap: the country Q6256 of the organisation tree
    is not an organisation. *)
Lemma C9_taxonomy_exclusions_witness :
  build_taxonomy rt_ex net_tax = Ok (mkTaxonomy [2221906; 515] [43229; 4830453]) /\
  ~ In 6256 (organization_subclass (mkTaxonomy [2221906; 515] [43229; 4830453])).
Proof.
  assert (H : build_taxonomy rt_ex net_tax = Ok (mkTaxonomy [2221906; 515] [43229; 4830453]))
    by (vm_compute; reflexivity).
  split; [exact H|].
  destruct (C9_taxonomy_exclusions rt_ex net_tax _ H) as [Horg _].
  intros Hin. apply Horg in Hin. destruct Hin as [_ Hx].
  apply (Hx 6256 [6256; 3624078]); [simpl; tauto | vm_compute; reflexivity | simpl; tauto].
Defined.

Lemma first_tree_error_In : forall rt net roots root e,
  In root roots -> tree_or_empty rt net root = Exc e ->
  exists e', first_tree_error rt net roots = Some e'.
Proof.
  intros rt net roots root e. induction roots as [|r rs IH]; intros Hin He; [destruct Hin|].
  cbn [first_tree_error]. destruct Hin as [<-|Hin].
  - rewrite He. eexists; reflexivity.
  - destruct (tree_or_empty rt net r); [apply IH; assumption | eexists; reflexivity].
Qed.

Lemma build_taxonomy_first_error : forall rt net e,
  build_taxonomy rt net = Exc e <-> first_tree_error rt net taxonomy_roots = Some e.
Proof.
  intros rt net e. unfold build_taxonomy. cbn [first_tree_error taxonomy_roots].
  repeat match goal with
         | |- context [tree_or_empty rt net ?x] =>
             destruct (tree_or_empty rt net x); cbn [rbind]
         end;
  split; intros H; inversion H; subst; reflexivity.
Qed.

(** C5 (amended): a closure query whose response body is not JSON
    ([JSONDecodeError], which [tree_or_empty] catches) gives the empty tree;
    any other failure of the request, and a JSON answer without ["results"],
    propagates: taxonomy construction fails exactly with the failure of the
    first of its fourteen closures that fails, so a failure of any of them
    aborts the run before any line is read, with the state untouched. *)
Theorem C5_closure_failure_modes : forall rt net root,
  (tree_query net root = TreeNotJson -> tree_or_empty rt net root = Ok []) /\
  (forall e, tree_query net root = TreeFail e ->
     tree_or_empty rt net root = if is_JSONDecodeError e then Ok [] else Exc e) /\
  (forall data e, tree_query net root = TreeJson data -> gi rt data "results" = Exc e ->
     tree_or_empty rt net root = Exc e) /\
  (forall e, build_taxonomy rt net = Exc e <-> first_tree_error rt net taxonomy_roots = Some e) /\
  (forall e, In root taxonomy_roots -> tree_or_empty rt net root = Exc e ->
     exists e', build_taxonomy rt net = Exc e' /\
                forall lines st, parse_wikidata_dump rt net lines st = (Exc e', st)) /\
  (forall e lines st, build_taxonomy rt net = Exc e ->
     parse_wikidata_dump rt net lines st = (Exc e, st)).
Proof.
  intros rt net root.
  assert (Habort : forall e lines st, build_taxonomy rt net = Exc e ->
                     parse_wikidata_dump rt net lines st = (Exc e, st)).
  { intros e lines st He. unfold parse_wikidata_dump, mbind, lift. rewrite He. reflexivity. }
  split; [|split; [|split; [|split; [|split]]]].
  - intros Hq. unfold tree_or_empty, get_wikidata_item_tree_item_idsSPARQL.
    rewrite Hq. reflexivity.
  - intros e Hq. unfold tree_or_empty, get_wikidata_item_tree_item_idsSPARQL.
    rewrite Hq. destruct e; reflexivity.
  - intros data e Hq Hr. unfold tree_or_empty, get_wikidata_item_tree_item_idsSPARQL.
    rewrite Hq, Hr. cbn [rbind].
    destruct e; try reflexivity.
    exfalso. exact (py_getitem_not_decode rt data (PStr "results") Hr).
  - apply build_taxonomy_first_error.
  - intros e Hin He. destruct (first_tree_error_In rt net _ _ _ Hin He) as [e' He'].
    apply build_taxonomy_first_error in He'.
    exists e'. split; [exact He'|]. intros lines st. apply Habort, He'.
  - exact Habort.
Qed.

(** C5, on the endpoints above: the time-zone tree of [net_tax] is not
    JSON and is empty; when only the time-zone query fails, the run
    aborts. *)
Lemma C5_closure_failure_modes_witness :
  tree_or_empty rt_ex net_tax 12143 = Ok [] /\
  exists e, build_taxonomy rt_ex net_late_down = Exc e /\
            parse_wikidata_dump rt_ex net_late_down [q42_line] st0 = (Exc e, st0).
Proof.
  destruct (C5_closure_failure_modes rt_ex net_tax 12143) as [H1 _].
  destruct (C5_closure_failure_modes rt_ex net_late_down 12143) as [_ [_ [_ [_ [H5 _]]]]].
  split; [apply H1; reflexivity|].
  destruct (H5 (RequestException "ConnectionError")
              ltac:(unfold taxonomy_roots; repeat (first [left; reflexivity | right]))
              ltac:(reflexivity)) as [e [He Hrun]].
  exists e. split; [exact He | apply Hrun].
Defined.

(** C5 fails: a failed request for the organisation tree is not caught; the
    taxonomy is not built and the run aborts. *)
Lemma C5_network_failure_aborts :
  tree_query net_down 43229 = TreeFail (RequestException "ConnectionError") /\
  build_taxonomy rt_ex net_down = Exc (RequestException "ConnectionError") /\
  fst (parse_wikidata_dump rt_ex net_down [q42_line] st0) =
    Exc (RequestException "ConnectionError").
Proof. vm_compute. repeat split. Qed.

(** ** Runs on concrete dumps *)

(** C2: an entity with no ["id"] (here a property) makes [parse_data] raise,
    and so does the handler, which reads [item["id"]]: no error is logged
    and the run stops before the next entity. *)
Lemma C2_property_without_id_aborts :
  let '(r, st) := parse_wikidata_dump rt_ex net_empty [noid_property_line; q42_line] st0 in
  r = Exc (KeyError (PStr "id")) /\ log_c st = [] /\ superclass_calls st = [] /\
  db_items st = [] /\ buf_items st = [].
Proof. vm_compute. repeat split. Qed.

(** C4: an item that parses but has no ["id"]: classification raises, the
    handler raises [KeyError] on [item["id"]] in turn, no error record is
    written and the next line is never processed. *)
Lemma C4_item_without_id_aborts :
  json_loads (strip2 noid_item_line) =
    Ok (PDict [(PStr "type", PStr "item"); (PStr "claims", PDict [])]) /\
  let '(r, st) := parse_wikidata_dump rt_ex net_empty [noid_item_line; q42_line] st0 in
  r = Exc (KeyError (PStr "id")) /\ log_c st = [] /\ superclass_calls st = [].
Proof. vm_compute. repeat split. Qed.

(** C7: the items record carries [extended_WDtypes] as a [set], which
    pymongo cannot encode. With 100 entities the flush at the 100th raises
    [InvalidDocument]: nothing is written, the items buffer keeps its 100
    records, the handler logs the error against the 100th entity, and the
    final flush raises again, ending the run. With 99 entities the final
    flush raises. *)
Lemma C7_items_flush_fails :
  (let '(r, st) := parse_wikidata_dump rt_ex net_empty (repeat q42_line 100) st0 in
   r = Exc InvalidDocument /\ db_items st = [] /\ db_objects st = [] /\
   length (buf_items st) = 100%nat /\ length (log_c st) = 1%nat) /\
  fst (parse_wikidata_dump rt_ex net_empty (repeat q42_line 99) st0) = Exc InvalidDocument.
Proof. vm_compute. repeat split. Qed.

(** C8: a line that is not UTF-8 makes [json.loads] raise
    [UnicodeDecodeError], which is not a [JSONDecodeError]: after an entity
    the handler logs an error against that previous entity; as the first
    line, the handler finds [item] unbound and the run aborts. *)
Lemma C8_undecodable_line_logged :
  json_loads (strip2 undecodable_line) = Exc UnicodeDecodeError /\
  log_c (snd (run_lines rt_ex net_empty tax_empty 0 [q42_line; undecodable_line] st0)) =
    [PDict [(PStr "entity", PStr "Q42"); (PStr "error", PStr "error");
            (PStr "traceback_str", PStr "Traceback")]] /\
  fst (run_lines rt_ex net_empty tax_empty 0 [undecodable_line; q42_line] st0) =
    Exc (UnboundLocalError "item").
Proof. vm_compute. repeat split. Qed.


(** C1 fails: for an entity whose only claim is [P31: Q5], the objects
    record maps [Q5] to [[P31]]. *)
Lemma C1_objects_not_empty :
  match build_join rt_ex net_empty (human_item "Q42" "Douglas Adams") 0 tax_empty st0 with
  | (Ok j, _) => gi rt_ex (j_objects j) "objects" = Ok (PDict [(PStr "Q5", PList [PStr "P31"])])
  | _ => False
  end.
Proof. vm_compute. reflexivity. Qed.

(** ** NER tags *)

Lemma ner_branch_eq : forall rt geo org nid,
  ner_branch rt geo org nid =
  Ok (if py_eq rt nid (PInt 5) then "PERS"
      else if existsb (fun x => py_eq rt x nid) geo then "LOC"
      else if existsb (fun x => py_eq rt x nid) org then "ORG" else "OTHERS").
Proof.
  intros rt geo org nid; unfold ner_branch, py_in.
  destruct (py_eq rt nid (PInt 5)); [reflexivity|]; cbn [rbind].
  destruct (existsb (fun x => py_eq rt x nid) geo); [reflexivity|]; cbn [rbind].
  destruct (existsb (fun x => py_eq rt x nid) org); reflexivity.
Qed.

Lemma ner_branch_tag : forall rt geo org nid t, ner_branch rt geo org nid = Ok t -> is_tag t.
Proof.
  intros rt geo org nid t H. rewrite ner_branch_eq in H. injection H as <-. unfold is_tag.
  destruct (py_eq rt nid (PInt 5)); [tauto|].
  destruct (existsb (fun x => py_eq rt x nid) geo); [tauto|].
  destruct (existsb (fun x => py_eq rt x nid) org); tauto.
Qed.

Lemma counter_add_In : forall c t x, In x (counter_add c t) <-> In x c \/ x = t.
Proof.
  intros c t x; unfold counter_add.
  destruct (existsb (String.eqb t) c) eqn:E.
  - apply existsb_exists in E. destruct E as [y [Hy Ht]]. apply String.eqb_eq in Ht; subst.
    split; [tauto|]. intros [H| ->]; assumption.
  - rewrite in_app_iff; simpl. split; intros [H|H]; try destruct H as [<-|[]]; subst; auto.
Qed.

Lemma counter_add_NoDup : forall c t, NoDup c -> NoDup (counter_add c t).
Proof.
  intros c t Hc; unfold counter_add.
  destruct (existsb (String.eqb t) c) eqn:E; [exact Hc|].
  apply NoDup_app; [exact Hc | constructor; [intros []|constructor] |].
  intros x Hx [Hxt|[]]. subst x.
  rewrite <- not_true_iff_false, existsb_exists in E. apply E.
  exists t; split; [exact Hx | apply String.eqb_refl].
Qed.

Lemma count_ner_spec : forall rt geo org claims c c',
  count_ner rt geo org claims c = Ok c' ->
  (NoDup c -> NoDup c') /\
  (forall t, In t c' <-> In t c \/
     exists claim nid, In claim claims /\ claim_numeric_id rt claim = Ok nid /\
                       ner_branch rt geo org nid = Ok t).
Proof.
  intros rt geo org claims. induction claims as [|claim r IH]; intros c c' H.
  - cbn in H. injection H as <-. split; [auto|]. intros t; split; [tauto|].
    intros [Ht|[claim [nid [[] _]]]]; exact Ht.
  - cbn [count_ner] in H. res_inv H.
    destruct (IH _ _ H) as [Hnd Hin]. split.
    + intros Hc. apply Hnd, counter_add_NoDup, Hc.
    + intros t. rewrite Hin, counter_add_In. split.
      * intros [[Ht| ->]|[cl [nid [Hcl [Hn Hb]]]]]; [tauto| |].
        -- right. exists claim, a. simpl. auto.
        -- right. exists cl, nid. simpl. auto.
      * intros [Ht|[cl [nid [[<-|Hcl] [Hn Hb]]]]]; [tauto| |].
        -- left; right. congruence.
        -- right. exists cl, nid. auto.
Qed.

Lemma ner_from_counter_id : forall c, (forall t, In t c -> is_tag t) -> ner_from_counter c = c.
Proof.
  induction c as [|t c IH]; intros H; simpl; [reflexivity|].
  rewrite IH by (intros x Hx; apply H; simpl; auto).
  destruct (H t (or_introl eq_refl)) as [-> |[-> |[-> | ->]]]; reflexivity.
Qed.

Lemma py_len_zero_iter : forall v n xs, py_len v = Ok n -> n = 0 -> py_iter v = Ok xs -> xs = [].
Proof.
  intros v n xs Hl Hn Hi. subst n.
  destruct v; cbn in Hl, Hi; try discriminate; injection Hl as Hl; injection Hi as <-;
    [ destruct (utf8_chars s); [reflexivity | discriminate] | ..];
    match goal with
    | |- map _ ?l = [] => destruct l; [reflexivity | discriminate]
    | |- ?l = [] => destruct l; [reflexivity | discriminate]
    end.
Qed.

Lemma ner_and_types_spec : forall rt item geo org ner tl,
  ner_and_types rt item geo org = Ok (ner, tl) ->
  (tl = None /\ ner = []) \/
  (exists claims p31v p31_claims,
     gi rt item "claims" = Ok claims /\ get_d rt claims "P31" (PList []) = Ok p31v /\
     py_iter p31v = Ok p31_claims /\ tl <> None /\ NoDup ner /\
     (forall t, In t ner <-> exists claim nid, In claim p31_claims /\
                  claim_numeric_id rt claim = Ok nid /\ ner_branch rt geo org nid = Ok t)).
Proof.
  intros rt item geo org ner tl H. unfold ner_and_types in H. res_inv H.
  destruct a0.
  2:{ left. injection H as <- <-. auto. }
  res_inv H. injection H as <- <-. right.
  exists a0, a1, a4.
  destruct (negb (a2 =? 0)) eqn:Hn; cbn [rbind] in E4.
  - res_inv E4. injection E4 as <-.
    destruct (count_ner_spec rt geo org a4 [] a6 E7) as [Hnd Hin].
    assert (Htags : forall t, In t a6 -> is_tag t).
    { intros t Ht. apply Hin in Ht. destruct Ht as [[]|[cl [nid [_ [_ Hb]]]]].
      eapply ner_branch_tag; eassumption. }
    rewrite (ner_from_counter_id a6 Htags).
    repeat split; auto; try discriminate.
    + apply Hnd; constructor.
    + intros Ht. apply Hin in Ht. destruct Ht as [[]|Ht]. exact Ht.
    + intros Ht. apply Hin. right. exact Ht.
  - injection E4 as <-. apply negb_false_iff, Z.eqb_eq in Hn.
    repeat split; auto; try discriminate.
    + constructor.
    + intros [].
    + intros [cl [nid [Hcl _]]].
      rewrite (py_len_zero_iter a1 a2 a4 E3 Hn E5) in Hcl. destruct Hcl.
Qed.

Lemma parse_pre_spec : forall rt item geo org p,
  parse_pre rt item geo org = Ok p ->
  exists entity claims preds first,
    gi rt item "id" = Ok entity /\ pre_entity p = entity /\
    gi rt item "claims" = Ok claims /\ py_iter claims = Ok preds /\
    py_getitem rt entity (PInt 0) = Ok first /\
    pre_category p = (if py_eq rt first (PStr "P") then "predicate"
                      else if any_P279 rt preds then "type" else "entity") /\
    ner_and_types rt item geo org = Ok (pre_NERtype p, pre_types_list p).
Proof.
  intros rt item geo org p H. unfold parse_pre in H. res_inv H. injection H as <-.
  do 4 eexists. repeat split; try eassumption; try reflexivity.
  match goal with |- Ok ?nt = _ => destruct nt; reflexivity end.
Qed.

Lemma NoDup_single : forall (l : list string) a,
  NoDup l -> (forall x, In x l -> x = a) -> In a l -> l = [a].
Proof.
  intros l a Hnd Hall Ha. destruct l as [|x [|y r]].
  - destruct Ha.
  - rewrite (Hall x (or_introl eq_refl)). reflexivity.
  - exfalso. inversion Hnd as [|? ? Hx _]; subst. apply Hx.
    rewrite (Hall x (or_introl eq_refl)), (Hall y (or_intror (or_introl eq_refl))). simpl; auto.
Qed.

Lemma ner_only_human : forall rt item geo org p claims p31v p31_claims,
  parse_pre rt item geo org = Ok p -> pre_types_list p <> None ->
  gi rt item "claims" = Ok claims -> get_d rt claims "P31" (PList []) = Ok p31v ->
  py_iter p31v = Ok p31_claims -> p31_claims <> [] ->
  (forall claim, In claim p31_claims ->
     exists nid, claim_numeric_id rt claim = Ok nid /\ py_eq rt nid (PInt 5) = true) ->
  pre_NERtype p = ["PERS"].
Proof.
  intros rt item geo org p claims p31v p31_claims H Htl Hc Hv Hl Hne Hall.
  destruct (parse_pre_spec rt item geo org p H) as [entity [claims0 [preds [first Hs]]]].
  destruct Hs as [_ [_ [_ [_ [_ [_ Hnt]]]]]].
  destruct (ner_and_types_spec _ _ _ _ _ _ Hnt) as [[Hn _]|Hr]; [contradiction|].
  destruct Hr as [c1 [v1 [l1 [Hc1 [Hv1 [Hl1 [_ [Hnd Hin]]]]]]]].
  rewrite Hc in Hc1; injection Hc1 as <-.
  rewrite Hv in Hv1; injection Hv1 as <-.
  rewrite Hl in Hl1; injection Hl1 as <-.
  apply NoDup_single; [exact Hnd| |].
  - intros t Ht. apply Hin in Ht. destruct Ht as [cl [nid [Hcl [Hn Hb]]]].
    destruct (Hall cl Hcl) as [nid' [Hn' H5]].
    rewrite Hn in Hn'; injection Hn' as <-.
    rewrite ner_branch_eq, H5 in Hb. injection Hb as <-. reflexivity.
  - destruct p31_claims as [|cl r]; [contradiction|].
    destruct (Hall cl (or_introl eq_refl)) as [nid [Hn H5]].
    apply Hin. exists cl, nid. split; [left; reflexivity|]. split; [exact Hn|].
    rewrite ner_branch_eq, H5. reflexivity.
Qed.

(** C6: the tag of one [P31] statement is PERS when its numeric id equals 5,
    else LOC when it is in the location set, else ORG when it is in the
    organisation set, else OTHERS; the entity's NER list holds each distinct
    tag of its [P31] statements exactly once and nothing else (and is empty
    when the tags are not computed); when every [P31] statement has the
    numeric id 5, and there is at least one, the list is exactly [PERS]. *)
Theorem C6_ner_tags : forall rt item geo org p,
  parse_pre rt item geo org = Ok p ->
  (forall nid, ner_branch rt geo org nid =
     Ok (if py_eq rt nid (PInt 5) then "PERS"
         else if existsb (fun x => py_eq rt x nid) geo then "LOC"
         else if existsb (fun x => py_eq rt x nid) org then "ORG" else "OTHERS")) /\
  NoDup (pre_NERtype p) /\
  (pre_types_list p = None -> pre_NERtype p = []) /\
  (forall claims p31v p31_claims,
     pre_types_list p <> None -> gi rt item "claims" = Ok claims ->
     get_d rt claims "P31" (PList []) = Ok p31v -> py_iter p31v = Ok p31_claims ->
     (forall t, In t (pre_NERtype p) <->
        exists claim nid, In claim p31_claims /\ claim_numeric_id rt claim = Ok nid /\
                          ner_branch rt geo org nid = Ok t) /\
     (p31_claims <> [] ->
      (forall claim, In claim p31_claims ->
         exists nid, claim_numeric_id rt claim = Ok nid /\ py_eq rt nid (PInt 5) = true) ->
      pre_NERtype p = ["PERS"])).
Proof.
  intros rt item geo org p H.
  destruct (parse_pre_spec rt item geo org p H) as [entity [claims0 [preds [first Hs]]]].
  destruct Hs as [_ [_ [_ [_ [_ [_ Hnt]]]]]].
  destruct (ner_and_types_spec _ _ _ _ _ _ Hnt) as [[Htl Hner]|Hr].
  - split; [exact (ner_branch_eq rt geo org)|].
    split; [rewrite Hner; constructor|]. split; [intros _; exact Hner|].
    intros claims p31v p31_claims Hne. contradiction.
  - destruct Hr as [c1 [v1 [l1 [Hc1 [Hv1 [Hl1 [Htl [Hnd Hin]]]]]]]].
    split; [exact (ner_branch_eq rt geo org)|].
    split; [exact Hnd|]. split; [intros Hn; contradiction|].
    intros claims p31v p31_claims _ Hc Hv Hl.
    rewrite Hc in Hc1; injection Hc1 as <-.
    rewrite Hv in Hv1; injection Hv1 as <-.
    rewrite Hl in Hl1; injection Hl1 as <-.
    split; [exact Hin|].
    intros Hne Hall. eapply ner_only_human; eauto.
Qed.


(** ** The records of one entity *)

Lemma gi_get : forall rt x k v d, gi rt x k = Ok v -> py_get rt x (PStr k) d = Ok v.
Proof.
  intros rt x k v d H. unfold gi, py_getitem in H. unfold py_get.
  destruct x; simpl in *; try discriminate.
  destruct (dlookup rt kvs (PStr k)); [exact H | discriminate].
Qed.

Lemma gi_get_d : forall rt x k v d, gi rt x k = Ok v -> get_d rt x k d = Ok v.
Proof. intros; unfold get_d; apply gi_get; assumption. Qed.

Lemma gi_in : forall rt x k v, gi rt x k = Ok v -> py_in rt (PStr k) x = Ok true.
Proof.
  intros rt x k v H. unfold gi, py_getitem in H.
  destruct x; simpl in *; try discriminate.
  induction kvs as [|[k' v'] r IH]; simpl in *; [discriminate|].
  destruct (py_eq rt k' (PStr k)); [reflexivity | exact (IH H)].
Qed.

Lemma utf8_chars_acc_Q : forall rest s, exists s' tl,
  utf8_chars_acc rest (String "Q" s) = String "Q" s' :: tl.
Proof.
  induction rest as [|c r IH]; intros s; simpl.
  - exists s, []. reflexivity.
  - destruct (is_cont_byte c).
    + exact (IH (s ++ String c EmptyString)%string).
    + exists s, (utf8_chars_acc r (String c EmptyString)). reflexivity.
Qed.

(** The first character of an id that starts with [Q] is not ["P"]. *)
Lemma first_char_Q : forall rt rest, exists s',
  py_getitem rt (PStr (String "Q" rest)) (PInt 0) = Ok (PStr (String "Q" s')) /\
  py_eq rt (PStr (String "Q" s')) (PStr "P") = false.
Proof.
  intros rt rest. destruct (utf8_chars_acc_Q rest EmptyString) as [s' [tl Hu]].
  exists s'. split; [|reflexivity].
  unfold py_getitem, utf8_chars. simpl. rewrite Hu. reflexivity.
Qed.

(** The claims loop over [{"P31": [c]}] for a statement [c] whose value is
    the item [Q5]. *)
Lemma claims_loop_q5 : forall rt c ms dv v,
  gi rt c "mainsnak" = Ok ms -> gi rt ms "datatype" = Ok (PStr "wikibase-item") ->
  gi rt ms "datavalue" = Ok dv -> gi rt dv "value" = Ok v -> gi rt v "id" = Ok (PStr "Q5") ->
  claims_loop rt (PDict [(PStr "P31", PList [c])]) [PStr "P31"] acc0 =
  Ok (mkAcc [PStr "Q5"] [(PStr "Q5", PList [PStr "P31"])] (acc_literals acc0)).
Proof.
  intros rt c ms dv v Hms Hdt Hdv Hv Hid.
  cbn [claims_loop claims_objs]. unfold py_getitem at 1. cbn [hashable dlookup].
  replace (py_eq rt (PStr "P31") (PStr "P31")) with true by reflexivity. cbn [rbind py_iter].
  cbn [claims_objs]. unfold claim_step. rewrite Hms; cbn [rbind]. rewrite Hdt; cbn [rbind].
  unfold check_skip. rewrite (gi_get rt c "mainsnak" ms c Hms); cbn [rbind].
  rewrite (gi_in rt ms "datavalue" dv Hdv); cbn [rbind negb].
  replace (py_in rt (PStr "wikibase-item") skip_set) with (Ok false) by reflexivity.
  cbn [rbind]. replace (py_eq rt (PStr "wikibase-item") (PStr "wikibase-item")) with true
    by reflexivity.
  cbn [orb]. rewrite Hdv; cbn [rbind]. rewrite Hv; cbn [rbind].
  rewrite Hid; cbn [rbind]. reflexivity.
Qed.

Lemma claim_numeric_id_q5 : forall rt c ms dv v,
  gi rt c "mainsnak" = Ok ms -> gi rt ms "datavalue" = Ok dv -> gi rt dv "value" = Ok v ->
  gi rt v "numeric-id" = Ok (PInt 5) -> claim_numeric_id rt c = Ok (PInt 5).
Proof.
  intros rt c ms dv v Hms Hdv Hv Hn. unfold claim_numeric_id.
  rewrite (gi_get_d _ _ _ _ _ Hms); cbn [rbind].
  rewrite (gi_get_d _ _ _ _ _ Hdv); cbn [rbind].
  rewrite (gi_get_d _ _ _ _ _ Hv); cbn [rbind].
  exact (gi_get_d _ _ _ _ _ Hn).
Qed.

Lemma build_join_inv : forall rt net item i tax st j st',
  build_join rt net item i tax st = (Ok j, st') ->
  exists p tl total,
    parse_pre rt item (map PInt (geolocation_subclass tax)) (map PInt (organization_subclass tax)) = Ok p /\
    pre_types_list p = Some tl /\
    superclasses_all rt net tl st = (Ok total, st') /\
    parse_post rt item i p tl total = Ok j.
Proof.
  intros rt net item i tax st j st' H. unfold build_join, mbind, lift in H.
  destruct (parse_pre _ _ _ _) as [p|e] eqn:Ep; [|discriminate].
  destruct (pre_types_list p) as [tl|] eqn:Et; [|discriminate].
  destruct (superclasses_all rt net tl st) as [[total|e] st1] eqn:Es; [|discriminate].
  injection H as Hj <-. exists p, tl, total. auto.
Qed.

(** C1 (amended): when an item whose id starts with [Q] and whose claims
    are exactly [{"P31": [c]}], for a statement [c] with the item value
    [Q5] (id ["Q5"], numeric id 5), is processed without error, its records
    have the kind ["entity"], the NER list [["PERS"]], the types
    [{"P31": ["Q5"]}], an empty dict for every literal datatype, and the
    objects [{"Q5": ["P31"]}]: item values go to the objects record. *)
Theorem C1_human_entity_records : forall rt net item i tax st j st' rest c ms dv v,
  gi rt item "id" = Ok (PStr (String "Q" rest)) ->
  gi rt item "claims" = Ok (PDict [(PStr "P31", PList [c])]) ->
  gi rt c "mainsnak" = Ok ms -> gi rt ms "datatype" = Ok (PStr "wikibase-item") ->
  gi rt ms "datavalue" = Ok dv -> gi rt dv "value" = Ok v ->
  gi rt v "id" = Ok (PStr "Q5") -> gi rt v "numeric-id" = Ok (PInt 5) ->
  build_join rt net item i tax st = (Ok j, st') ->
  gi rt (j_items j) "kind" = Ok (PStr "entity") /\
  gi rt (j_items j) "NERtype" = Ok (PList [PStr "PERS"]) /\
  gi rt (j_items j) "types" = Ok (PDict [(PStr "P31", PList [PStr "Q5"])]) /\
  gi rt (j_objects j) "objects" = Ok (PDict [(PStr "Q5", PList [PStr "P31"])]) /\
  gi rt (j_literals j) "literals" = Ok (PDict (map (fun d => (PStr d, PDict [])) DATATYPES)) /\
  gi rt (j_types j) "types" = Ok (PDict [(PStr "P31", PList [PStr "Q5"])]).
Proof.
  intros rt net item i tax st j st' rest c ms dv v Hid Hcl Hms Hdt Hdv Hv Hq5 Hn Hb.
  destruct (build_join_inv _ _ _ _ _ _ _ _ Hb) as [p [tl [total [Hp [Htl [_ Hpost]]]]]].
  destruct (parse_pre_spec _ _ _ _ _ Hp) as [entity [claims0 [preds [first Hs]]]].
  destruct Hs as [Hid' [_ [Hcl' [Hpreds [Hfirst [Hcat _]]]]]].
  rewrite Hcl in Hcl'; injection Hcl' as <-.
  cbn in Hpreds; injection Hpreds as <-.
  rewrite Hid in Hid'; injection Hid' as <-.
  destruct (first_char_Q rt rest) as [s' [Hf Hpf]].
  rewrite Hf in Hfirst; injection Hfirst as <-.
  rewrite Hpf in Hcat.
  assert (Hcat' : pre_category p = "entity") by (rewrite Hcat; reflexivity).
  assert (Hner : pre_NERtype p = ["PERS"]).
  { eapply (ner_only_human rt item _ _ p (PDict [(PStr "P31", PList [c])]) (PList [c]) [c]);
      [exact Hp | rewrite Htl; discriminate | exact Hcl | reflexivity | reflexivity
      | discriminate | ].
    intros cl [Hc|[]]. subst cl. exists (PInt 5). split; [|reflexivity].
    exact (claim_numeric_id_q5 rt c ms dv v Hms Hdv Hv Hn). }
  unfold parse_post in Hpost. res_inv Hpost.
  assert (Ha1 : a1 = PDict [(PStr "P31", PList [c])]) by congruence. subst a1.
  cbn in E2; injection E2 as <-.
  rewrite (claims_loop_q5 rt c ms dv v Hms Hdt Hdv Hv Hq5) in E3; injection E3 as <-.
  injection Hpost as <-. cbn [j_items j_objects j_literals j_types].
  rewrite Hcat', Hner. repeat split; reflexivity.
Qed.

(** C1, on the person Q42 of the fixtures. *)
Lemma C1_human_entity_records_witness :
  match build_join rt_ex net_tax (human_item "Q42" "Douglas Adams") 0 tax_empty st0 with
  | (Ok j, _) => gi rt_ex (j_objects j) "objects" = Ok (PDict [(PStr "Q5", PList [PStr "P31"])])
  | _ => False
  end.
Proof.
  destruct (build_join rt_ex net_tax (human_item "Q42" "Douglas Adams") 0 tax_empty st0)
    as [[j|e] st'] eqn:Hb; [|vm_compute in Hb; discriminate].
  refine (proj1 (proj2 (proj2 (proj2
    (C1_human_entity_records rt_ex net_tax (human_item "Q42" "Douglas Adams") 0 tax_empty st0 j st'
       "42" q5_statement _ _ (PDict [(PStr "entity-type", PStr "item");
                                     (PStr "numeric-id", PInt 5); (PStr "id", PStr "Q5")])
       _ _ _ _ _ _ _ _ Hb))))); vm_compute; reflexivity.
Defined.

(** C6, on the person Q42 of the fixtures. *)
Lemma C6_ner_tags_witness :
  match parse_pre rt_ex (human_item "Q42" "Douglas Adams") [] [] with
  | Ok p => pre_NERtype p = ["PERS"]
  | Exc _ => False
  end.
Proof.
  destruct (parse_pre rt_ex (human_item "Q42" "Douglas Adams") [] []) as [p|e] eqn:Hp;
    [|vm_compute in Hp; discriminate].
  destruct (C6_ner_tags _ _ _ _ _ Hp) as [_ [_ [_ Hall]]].
  refine (proj2 (Hall (PDict [(PStr "P31", PList [q5_statement])]) (PList [q5_statement])
                      [q5_statement] _ _ _ _) _ _).
  - vm_compute in Hp. injection Hp as <-. discriminate.
  - reflexivity.
  - reflexivity.
  - reflexivity.
  - discriminate.
  - intros cl [<-|[]]. exists (PInt 5). split; reflexivity.
Defined.

(** ** Superclass lookups *)

Lemma set_buf_frame : forall st k l,
  superclass_calls (set_buf st k l) = superclass_calls st /\ item_var (set_buf st k l) = item_var st.
Proof. intros [] [] l; split; reflexivity. Qed.

Lemma set_db_frame : forall st k l,
  superclass_calls (set_db st k l) = superclass_calls st /\ item_var (set_db st k l) = item_var st.
Proof. intros [] [] l; split; reflexivity. Qed.

Lemma set_log_frame : forall st l,
  superclass_calls (set_log st l) = superclass_calls st /\ item_var (set_log st l) = item_var st.
Proof. intros [] l; split; reflexivity. Qed.

(** [insert_many] touches neither the log, the counters, [item] nor the
    lookups made. *)
Lemma insert_many_other : forall k st, other_state st (snd (insert_many k st)).
Proof.
  intros k st. unfold insert_many.
  destruct (buf st k) as [|d ds]; [repeat split|].
  destruct (assign_ids (d :: ds) (oid_next st)) as [[docs' n] err].
  assert (H1 : other_state st (set_oid (set_buf st k docs') n)) by (destruct st, k; repeat split).
  destruct err as [e|]; [exact H1|].
  destruct (first_error docs'); [exact H1|].
  destruct (insert_ordered k (db (set_oid (set_buf st k docs') n) k) docs') as [coll err'].
  assert (H2 : other_state st (set_db (set_oid (set_buf st k docs') n) k coll))
    by (destruct st, k; repeat split).
  destruct err'; exact H2.
Qed.

(** Flushing the buffers touches neither the lookups made nor [item]. *)
Lemma flush_kinds_frame : forall ks st,
  superclass_calls (snd (flush_kinds ks st)) = superclass_calls st /\
  item_var (snd (flush_kinds ks st)) = item_var st.
Proof.
  induction ks as [|k r IH]; intros st; [split; reflexivity|].
  cbn [flush_kinds]. destruct (0 <? Z.of_nat (length (buf st k))); [|apply IH].
  unfold mbind. pose proof (insert_many_other k st) as Ho.
  destruct (insert_many k st) as [[u|e] st1]; cbn [snd] in Ho; unfold other_state in Ho.
  - destruct (IH (set_buf st1 k [])) as [H1 H2].
    destruct (set_buf_frame st1 k []) as [H3 H4].
    split; intuition congruence.
  - cbn [snd]. intuition congruence.
Qed.

Lemma emit_frame : forall j st,
  superclass_calls (snd (emit j st)) = superclass_calls st /\
  item_var (snd (emit j st)) = item_var st.
Proof.
  intros j st. unfold emit.
  assert (Hf : forall ks s,
    superclass_calls (fold_left (fun s k => set_buf s k (buf s k ++ [join_of k j])) ks s) =
      superclass_calls s /\
    item_var (fold_left (fun s k => set_buf s k (buf s k ++ [join_of k j])) ks s) = item_var s).
  { induction ks as [|k r IH]; intros s; simpl; [split; reflexivity|].
    destruct (IH (set_buf s k (buf s k ++ [join_of k j]))) as [H1 H2].
    destruct (set_buf_frame s k (buf s k ++ [join_of k j])) as [H3 H4].
    split; congruence. }
  destruct (Hf kinds st) as [H1 H2].
  match goal with |- context [if ?b then _ else _] => destruct b end.
  - destruct (flush_kinds_frame kinds
      (fold_left (fun s k => set_buf s k (buf s k ++ [join_of k j])) kinds st)) as [H3 H4].
    unfold flush_buffer. split; congruence.
  - split; assumption.
Qed.

Lemma superclasses_all_calls : forall rt net tl st total st',
  superclasses_all rt net tl st = (Ok total, st') ->
  superclass_calls st' = superclass_calls st ++ tl.
Proof.
  intros rt net. induction tl as [|el r IH]; intros st total st' H.
  - cbn in H. injection H as _ <-. rewrite app_nil_r. reflexivity.
  - cbn [superclasses_all] in H. unfold mbind, retrieve_superclasses in H.
    destruct (process_superclasses rt (superclass_query net el)); [|discriminate].
    destruct (superclasses_all rt net r (add_call st el)) as [[ys|e] st1] eqn:Hr; [|discriminate].
    unfold mret in H. injection H as _ <-.
    rewrite (IH _ _ _ Hr). destruct st; cbn. rewrite <- app_assoc. reflexivity.
Qed.

(** [superclasses_all] looks up the declared types one after the other:
    when the answers for all but the last are well formed, every type is
    looked up once, in order, whatever the last answer is. *)
Lemma superclasses_all_prefix_calls : forall rt net ts st,
  Forall (fun el => exists xs, process_superclasses rt (superclass_query net el) = Ok xs)
         (removelast ts) ->
  superclass_calls (snd (superclasses_all rt net ts st)) = superclass_calls st ++ ts /\
  item_var (snd (superclasses_all rt net ts st)) = item_var st.
Proof.
  intros rt net ts. induction ts as [|el r IH]; intros st Hok.
  - cbn. rewrite app_nil_r. split; reflexivity.
  - cbn [superclasses_all]. unfold mbind, retrieve_superclasses, mret.
    destruct r as [|el2 r].
    + destruct (process_superclasses rt (superclass_query net el)); destruct st; split; reflexivity.
    + cbn [removelast] in Hok. inversion Hok as [|? ? [xs Hxs] Hr]; subst.
      rewrite Hxs.
      destruct (IH (add_call st el) Hr) as [H1 H2].
      destruct (superclasses_all rt net (el2 :: r) (add_call st el)) as [[ys|e] st2];
        cbn [snd] in *; rewrite H1, H2; destruct st; cbn; split;
        rewrite ?app_comm_cons, <- ?app_assoc; reflexivity.
Qed.

(** The handler, once [item] holds an entity whose id is a string, logs
    the error and returns. *)
Lemma log_error_str_id : forall rt e st item id,
  item_var st = Some item -> gi rt item "id" = Ok (PStr id) ->
  fst (log_error rt e st) = Ok tt /\ superclass_calls (snd (log_error rt e st)) = superclass_calls st.
Proof.
  intros rt e st item id Hi Hid. unfold log_error. rewrite Hi, Hid.
  unfold insert_one_log. cbn [bson_error]. destruct st; split; reflexivity.
Qed.

(** One line holding an entity with a string id whose declared types are
    [ts]: when the answers for all but the last type are well formed, the
    line is consumed and exactly the lookups for [ts] are made, in order. *)
Lemma process_line_types : forall rt net tax i line st item p ts id,
  json_loads (strip2 line) = Ok item ->
  parse_pre rt item (map PInt (geolocation_subclass tax)) (map PInt (organization_subclass tax)) = Ok p ->
  pre_types_list p = Some ts ->
  gi rt item "id" = Ok (PStr id) ->
  Forall (fun el => exists xs, process_superclasses rt (superclass_query net el) = Ok xs)
         (removelast ts) ->
  fst (process_line rt net tax i line st) = Ok tt /\
  superclass_calls (snd (process_line rt net tax i line st)) = superclass_calls st ++ ts.
Proof.
  intros rt net tax i line st item p ts id Hj Hp Htl Hid Hok. unfold process_line, line_body. rewrite Hj.
  set (st1 := update_average_size (set_item_var st item) (Z.of_nat (String.length line))).
  assert (Hc1 : superclass_calls st1 = superclass_calls st) by (destruct st; reflexivity).
  assert (Hi1 : item_var st1 = Some item) by (destruct st; reflexivity).
  clearbody st1.
  unfold parse_data, build_join, mbind, lift. rewrite Hp, Htl.
  destruct (superclasses_all_prefix_calls rt net ts st1 Hok) as [Hc2 Hi2].
  assert (Hlog : forall e s, item_var s = Some item -> superclass_calls s = superclass_calls st ++ ts ->
            fst (log_error rt e s) = Ok tt /\
            superclass_calls (snd (log_error rt e s)) = superclass_calls st ++ ts).
  { intros e s Hs Hcs. destruct (log_error_str_id rt e s item id Hs Hid) as [Ha Hb].
    split; [exact Ha | congruence]. }
  destruct (superclasses_all rt net ts st1) as [[total|e] st2]; cbn in Hc2, Hi2.
  - destruct (parse_post rt item i p ts total) as [j|e].
    + destruct (emit_frame j st2) as [Hc3 Hi3].
      destruct (emit j st2) as [[u|e] st3]; cbn in Hc3, Hi3.
      * split; [reflexivity|]. cbn. congruence.
      * destruct e; try (apply Hlog; congruence).
        split; [reflexivity|]. cbn. congruence.
    + destruct e; try (apply Hlog; congruence).
      split; [reflexivity|]. cbn. congruence.
  - destruct e; try (apply Hlog; congruence).
    split; [reflexivity|]. cbn. congruence.
Qed.

Lemma concat_singletons : forall (T : string) tss,
  Forall (fun ts => ts = [T]) tss -> concat tss = repeat T (length tss).
Proof.
  intros T tss H. induction H as [|ts r Hts _ IH]; [reflexivity|].
  subst ts. cbn. rewrite IH. reflexivity.
Qed.



(** ** BSON encoding of the items record *)

Lemma bson_dict_set : forall pre k s post,
  Forall (fun kv => exists n, fst kv = PStr n) pre ->
  bson_error (PDict (pre ++ (PStr k, PSet s) :: post)) <> None.
Proof.
  induction pre as [|[k0 x] r IH]; intros k s post Hk; cbn; [discriminate|].
  inversion Hk as [|? ? [n Hn] Hr]; subst. cbn in Hn. subst k0.
  destruct (bson_error x); [discriminate|]. apply (IH k s post Hr).
Qed.



(** ** Buffers and collections *)

Lemma other_set_buf : forall st k l, other_state st (set_buf st k l).
Proof. intros [] [] l; repeat split. Qed.

Lemma other_refl : forall st, other_state st st.
Proof. intros st; repeat split. Qed.

Lemma other_trans : forall s1 s2 s3, other_state s1 s2 -> other_state s2 s3 -> other_state s1 s3.
Proof. unfold other_state. intuition congruence. Qed.

(** A flush touches neither the log, the counters, [item] nor the lookups
    made. *)
Lemma flush_kinds_other : forall ks st, other_state st (snd (flush_kinds ks st)).
Proof.
  induction ks as [|k r IH]; intros st; [apply other_refl|].
  cbn [flush_kinds]. destruct (0 <? Z.of_nat (length (buf st k))); [|apply IH].
  unfold mbind. pose proof (insert_many_other k st) as Ho.
  destruct (insert_many k st) as [[u|e] st1]; cbn [snd] in Ho; [|exact Ho].
  eapply other_trans; [exact Ho|]. eapply other_trans; [apply other_set_buf|apply IH].
Qed.

Lemma records_kept_refl : forall st, records_kept st st.
Proof. intros st. repeat split. Qed.

Lemma records_kept_trans : forall s1 s2 s3,
  records_kept s1 s2 -> records_kept s2 s3 -> records_kept s1 s3.
Proof.
  intros s1 s2 s3 [H1 H2] [H3 H4]. split; [|intuition congruence].
  intros k. destruct (H1 k), (H3 k). split; congruence.
Qed.

Lemma records_kept_add_call : forall st e, records_kept st (add_call st e).
Proof. intros [] e. split; [intros []; split; reflexivity | repeat split]. Qed.

Lemma superclasses_all_kept : forall rt net tl st,
  records_kept st (snd (superclasses_all rt net tl st)).
Proof.
  intros rt net. induction tl as [|el r IH]; intros st; [apply records_kept_refl|].
  cbn [superclasses_all]. unfold mbind, retrieve_superclasses, mret.
  destruct (process_superclasses rt (superclass_query net el)); [|apply records_kept_add_call].
  specialize (IH (add_call st el)).
  destruct (superclasses_all rt net r (add_call st el)) as [[ys|e] st1]; cbn in IH |- *;
    (eapply records_kept_trans; [apply records_kept_add_call | exact IH]).
Qed.

(** Building the records of an entity touches no buffer, no collection,
    no log and no counter. *)
Lemma build_join_kept : forall rt net item i tax st,
  records_kept st (snd (build_join rt net item i tax st)).
Proof.
  intros rt net item i tax st. unfold build_join, mbind, lift.
  destruct (parse_pre _ _ _ _) as [p|e]; [|apply records_kept_refl].
  destruct (pre_types_list p) as [tl|]; [|apply records_kept_refl].
  pose proof (superclasses_all_kept rt net tl st) as H.
  destruct (superclasses_all rt net tl st) as [[total|e] st1]; exact H.
Qed.

Lemma emit_append : forall j st,
  let st1 := fold_left (fun s k => set_buf s k (buf s k ++ [join_of k j])) kinds st in
  (forall k, buf st1 k = buf st k ++ [join_of k j] /\ db st1 k = db st k) /\
  other_state st st1.
Proof.
  intros j [bi bo bl bt xi xo xl xt lg ts n it sc]. cbn.
  split; [intros []; split; reflexivity | repeat split].
Qed.

(** Extra: [parse_data] flushes only when the items buffer held 99
    records; otherwise it appends one record to each of the four buffers,
    and once a flush has been missed (100 records or more) no later entity
    triggers one. *)
Theorem emit_no_flush : forall j st,
  length (buf st Items) <> 99%nat ->
  fst (emit j st) = Ok tt /\
  forall k, buf (snd (emit j st)) k = buf st k ++ [join_of k j] /\
            db (snd (emit j st)) k = db st k.
Proof.
  intros j st Hn. unfold emit.
  destruct (emit_append j st) as [H1 _].
  set (st1 := fold_left _ kinds st) in *.
  assert (Hl : (Z.of_nat (length (buf st1 Items)) =? BATCH_SIZE) = false).
  { rewrite (proj1 (H1 Items)), length_app. cbn [length]. unfold BATCH_SIZE.
    apply Z.eqb_neq. lia. }
  rewrite Hl. split; [reflexivity | exact H1].
Qed.

Lemma emit_no_flush_witness :
  fst (emit (mkJoin PNone PNone PNone PNone) (set_buf st0 Items (repeat PNone 100))) = Ok tt /\
  forall k, buf (snd (emit (mkJoin PNone PNone PNone PNone) (set_buf st0 Items (repeat PNone 100)))) k =
              buf (set_buf st0 Items (repeat PNone 100)) k ++ [join_of k (mkJoin PNone PNone PNone PNone)] /\
            db (snd (emit (mkJoin PNone PNone PNone PNone) (set_buf st0 Items (repeat PNone 100)))) k =
              db (set_buf st0 Items (repeat PNone 100)) k.
Proof.
  apply emit_no_flush. cbn. discriminate.
Defined.

(** Extra: an entity is processed all or nothing: unless its items record
    is the 100th in the buffer, [parse_data] either appends the entity's
    four records, one to each buffer, or raises with every buffer and
    collection as it was. *)
Theorem parse_data_all_or_nothing : forall rt net item i tax st,
  length (buf st Items) <> 99%nat ->
  (exists j, fst (build_join rt net item i tax st) = Ok j /\
     fst (parse_data rt net item i tax st) = Ok tt /\
     forall k, buf (snd (parse_data rt net item i tax st)) k = buf st k ++ [join_of k j] /\
               db (snd (parse_data rt net item i tax st)) k = db st k) \/
  (exists e, fst (parse_data rt net item i tax st) = Exc e /\
     forall k, buf (snd (parse_data rt net item i tax st)) k = buf st k /\
               db (snd (parse_data rt net item i tax st)) k = db st k).
Proof.
  intros rt net item i tax st Hn. unfold parse_data, mbind.
  pose proof (build_join_kept rt net item i tax st) as [Hk _].
  destruct (build_join rt net item i tax st) as [[j|e] st1]; cbn in Hk.
  - left. exists j. split; [reflexivity|].
    assert (Hn1 : length (buf st1 Items) <> 99%nat) by (rewrite (proj1 (Hk Items)); exact Hn).
    destruct (emit_no_flush j st1 Hn1) as [H1 H2].
    destruct (emit j st1) as [r st2]. cbn in H1, H2 |- *. split; [exact H1|].
    intros k. destruct (H2 k), (Hk k). split; congruence.
  - right. exists e. split; [reflexivity|]. exact Hk.
Qed.

Lemma parse_data_all_or_nothing_witness :
  exists j, fst (build_join rt_ex net_tax (human_item "Q42" "Douglas Adams") 0 tax_empty st0) = Ok j /\
     fst (parse_data rt_ex net_tax (human_item "Q42" "Douglas Adams") 0 tax_empty st0) = Ok tt /\
     forall k, buf (snd (parse_data rt_ex net_tax (human_item "Q42" "Douglas Adams") 0 tax_empty st0)) k =
                 buf st0 k ++ [join_of k j] /\
               db (snd (parse_data rt_ex net_tax (human_item "Q42" "Douglas Adams") 0 tax_empty st0)) k = db st0 k.
Proof.
  destruct (parse_data_all_or_nothing rt_ex net_tax (human_item "Q42" "Douglas Adams") 0 tax_empty st0
              ltac:(cbn; discriminate)) as [H|[e [He _]]].
  - exact H.
  - vm_compute in He. discriminate.
Defined.

Lemma parse_data_counters : forall rt net item i tax st,
  log_c (snd (parse_data rt net item i tax st)) = log_c st /\
  total_size_processed (snd (parse_data rt net item i tax st)) = total_size_processed st /\
  num_entities_processed (snd (parse_data rt net item i tax st)) = num_entities_processed st /\
  item_var (snd (parse_data rt net item i tax st)) = item_var st.
Proof.
  intros rt net item i tax st. unfold parse_data, mbind.
  pose proof (build_join_kept rt net item i tax st) as [_ Hk].
  destruct (build_join rt net item i tax st) as [[j|e] st1]; cbn in Hk; [|exact Hk].
  unfold emit. destruct (emit_append j st1) as [_ H1].
  set (st2 := fold_left _ kinds st1) in *.
  destruct (Z.of_nat (length (buf st2 Items)) =? BATCH_SIZE).
  - pose proof (flush_kinds_other kinds st2) as H2. unfold flush_buffer.
    unfold other_state in *. intuition congruence.
  - unfold other_state in *. cbn [snd]. intuition congruence.
Qed.

Lemma log_error_counters : forall rt e st,
  total_size_processed (snd (log_error rt e st)) = total_size_processed st /\
  num_entities_processed (snd (log_error rt e st)) = num_entities_processed st /\
  (length (log_c (snd (log_error rt e st))) <= S (length (log_c st)))%nat.
Proof.
  intros rt e st. unfold log_error.
  destruct (item_var st) as [item|]; [|cbn; repeat split; lia].
  destruct (gi rt item "id") as [id|e']; [|cbn; repeat split; lia].
  unfold insert_one_log. destruct (bson_error _); [cbn; repeat split; lia|].
  destruct st; cbn. rewrite length_app. cbn. repeat split; lia.
Qed.

Lemma process_line_counters : forall rt net tax i line st,
  total_size_processed (snd (process_line rt net tax i line st)) =
    total_size_processed st + (if decodes line then Z.of_nat (String.length line) else 0) /\
  num_entities_processed (snd (process_line rt net tax i line st)) =
    num_entities_processed st + (if decodes line then 1 else 0) /\
  (length (log_c (snd (process_line rt net tax i line st))) <= S (length (log_c st)))%nat.
Proof.
  intros rt net tax i line st. unfold process_line, line_body, decodes.
  destruct (json_loads (strip2 line)) as [item|e].
  - set (st1 := update_average_size (set_item_var st item) (Z.of_nat (String.length line))).
    assert (H1 : total_size_processed st1 = total_size_processed st + Z.of_nat (String.length line) /\
                 num_entities_processed st1 = num_entities_processed st + 1 /\
                 log_c st1 = log_c st) by (destruct st; repeat split).
    destruct (parse_data_counters rt net item i tax st1) as [H2 [H3 [H4 _]]].
    destruct (parse_data rt net item i tax st1) as [[u|e] st2]; cbn [snd] in *.
    + repeat split; try lia. rewrite H2, (proj2 (proj2 H1)). lia.
    + destruct (log_error_counters rt e st2) as [H5 [H6 H7]].
      destruct e; cbn [snd]; repeat split; try lia;
        rewrite ?H5, ?H6, ?H2, ?H3, ?H4 in *; try lia;
        rewrite (proj2 (proj2 H1)) in *; lia.
  - destruct (log_error_counters rt e st) as [H5 [H6 H7]].
    destruct e; cbn [snd]; repeat split; lia.
Qed.




Lemma final_flush_counters : forall st,
  total_size_processed (snd (final_flush st)) = total_size_processed st /\
  num_entities_processed (snd (final_flush st)) = num_entities_processed st.
Proof.
  intros st. unfold final_flush. destruct (0 <? _); [|split; reflexivity].
  destruct (flush_kinds_other kinds st) as [_ [H1 [H2 _]]]. split; assumption.
Qed.



(** ** The retry loop *)

Lemma query_wikidata_from_spec : forall answer left attempt delay,
  let '(r, n, t) := query_wikidata_from answer attempt left delay in
  (n <= left)%nat /\
  (0 <= delay -> 0 <= t <= delay * Z.of_nat left) /\
  forall v, r = Some v <->
    exists a, (a < left)%nat /\ answer (attempt + a)%nat = SparqlResult v /\
      forall b, (b < a)%nat -> exists msg, answer (attempt + b)%nat = SparqlError msg /\
                                       str_contains msg "429" = true.
Proof.
  intros answer. induction left as [|l IH]; intros attempt delay; cbn [query_wikidata_from].
  - split; [lia|]. split; [intros; lia|]. intros v. split; [discriminate|].
    intros [a [Ha _]]. lia.
  - destruct (answer attempt) as [v0|msg] eqn:Ea.
    + split; [lia|]. split; [intros; lia|]. intros v. split.
      * intros [= <-]. exists 0%nat. rewrite Nat.add_0_r. split; [lia|]. split; [exact Ea|].
        intros b Hb. lia.
      * intros [a [Ha [Hv Hb]]]. destruct a as [|a].
        -- rewrite Nat.add_0_r in Hv. congruence.
        -- destruct (Hb 0%nat ltac:(lia)) as [m [Hm _]]. rewrite Nat.add_0_r in Hm. congruence.
    + destruct (str_contains msg "429") eqn:E429.
      * specialize (IH (S attempt) delay).
        destruct (query_wikidata_from answer (S attempt) l delay) as [[r n] t].
        destruct IH as [H1 [H2 H3]]. split; [lia|]. split.
        { intros Hd. specialize (H2 Hd). lia. }
        intros v. rewrite H3. split.
        -- intros [a [Ha [Hv Hb]]]. exists (S a). split; [lia|].
           split; [rewrite <- Hv; f_equal; lia|].
           intros b Hb'. destruct b as [|b].
           ++ exists msg. rewrite Nat.add_0_r. split; assumption.
           ++ destruct (Hb b ltac:(lia)) as [m Hm]. exists m.
              replace (attempt + S b)%nat with (S attempt + b)%nat by lia. exact Hm.
        -- intros [a [Ha [Hv Hb]]]. destruct a as [|a].
           ++ rewrite Nat.add_0_r in Hv. congruence.
           ++ exists a. split; [lia|].
              split; [rewrite <- Hv; f_equal; lia|].
              intros b Hb'. destruct (Hb (S b) ltac:(lia)) as [m Hm]. exists m.
              replace (S attempt + b)%nat with (attempt + S b)%nat by lia. exact Hm.
      * split; [lia|]. split; [intros; lia|]. intros v. split; [discriminate|].
        intros [a [Ha [Hv Hb]]]. destruct a as [|a].
        -- rewrite Nat.add_0_r in Hv. congruence.
        -- destruct (Hb 0%nat ltac:(lia)) as [m [Hm Hc]]. rewrite Nat.add_0_r in Hm.
           rewrite Ea in Hm. injection Hm as <-. congruence.
Qed.



(** ** Decimal ids *)

Lemma byte_val_of : forall z, 0 <= z < 256 -> byte_val (byte_of z) = z.
Proof.
  intros z Hz. unfold byte_val, byte_of. rewrite nat_ascii_embedding.
  - apply Z2Nat.id. lia.
  - apply Nat2Z.inj_lt. rewrite Z2Nat.id; lia.
Qed.

Lemma bytes_of_app : forall s t, bytes_of (s ++ t) = bytes_of s ++ bytes_of t.
Proof. induction s as [|c s IH]; intros t; cbn; [reflexivity|]. rewrite IH. reflexivity. Qed.

Lemma digit_byte : forall n,
  byte_val (byte_of (48 + n mod 10)) = 48 + n mod 10 /\ is_digit (48 + n mod 10) = true.
Proof.
  intros n. pose proof (Z.mod_pos_bound n 10 ltac:(lia)). split.
  - apply byte_val_of. lia.
  - unfold is_digit, in_range. apply andb_true_intro; split; apply Z.leb_le; lia.
Qed.

Lemma dec_digits_spec : forall fuel n acc,
  0 <= n < 10 ^ Z.of_nat (S fuel) ->
  exists ds, bytes_of (dec_digits (S fuel) n acc) = ds ++ bytes_of acc /\ ds <> [] /\
    Forall (fun b => is_digit b = true) ds /\
    forall a p rest, int_digits (ds ++ rest) a p = int_digits rest (a * 10 ^ Z.of_nat (length ds) + n) true.
Proof.
  induction fuel as [|f IH]; intros n acc Hn; cbn [dec_digits];
    destruct (digit_byte n) as [Hd Hdig]; destruct (n <? 10) eqn:Hlt.
  1, 3:
    apply Z.ltb_lt in Hlt; exists [48 + n mod 10]; cbn [bytes_of]; rewrite Hd;
    split; [reflexivity|]; split; [discriminate|]; split; [apply Forall_cons; [exact Hdig | apply Forall_nil]|];
    intros a p rest; cbn [app int_digits]; rewrite Hdig; f_equal;
    (rewrite Z.mod_small by lia); replace (10 ^ Z.of_nat (length [48 + n])) with 10 by reflexivity; lia.
  - apply Z.ltb_ge in Hlt. cbn in Hn. lia.
  - apply Z.ltb_ge in Hlt.
    destruct (IH (n / 10) (String (byte_of (48 + n mod 10)) acc)) as [ds [H1 [H2 [H3 H4]]]].
    { split; [apply Z.div_pos; lia|].
      rewrite Nat2Z.inj_succ, Z.pow_succ_r in Hn by lia.
      apply Z.div_lt_upper_bound; lia. }
    exists (ds ++ [48 + n mod 10]). cbn [dec_digits] in H1. rewrite H1. cbn [bytes_of]. rewrite Hd.
    split; [rewrite <- app_assoc; reflexivity|]. split; [destruct ds; [contradiction|discriminate]|].
    split; [apply Forall_app; split; [exact H3 | constructor; [exact Hdig | constructor]]|].
    intros a p rest. rewrite <- app_assoc, H4. cbn [app int_digits]. rewrite Hdig. f_equal.
    rewrite length_app. cbn [length]. rewrite Nat2Z.inj_add, Z.pow_add_r by lia.
    pose proof (Z.div_mod n 10 ltac:(lia)). cbn [Z.of_nat Pos.of_succ_nat]. lia.
Qed.

Lemma z_to_dec_digits : forall n, 0 <= n ->
  exists ds, bytes_of (z_to_dec n) = ds /\ ds <> [] /\
    Forall (fun b => is_digit b = true) ds /\
    forall a p rest, int_digits (ds ++ rest) a p = int_digits rest (a * 10 ^ Z.of_nat (length ds) + n) true.
Proof.
  intros n Hn. unfold z_to_dec. destruct (n <? 0) eqn:E; [apply Z.ltb_lt in E; lia|].
  pose proof (Z.log2_nonneg n).
  replace (Z.to_nat (Z.log2 n + 2)) with (S (Z.to_nat (Z.log2 n + 1))) by lia.
  destruct (dec_digits_spec (Z.to_nat (Z.log2 n + 1)) n "") as [ds [H1 H2]].
  - split; [exact Hn|]. rewrite Nat2Z.inj_succ, Z2Nat.id by lia.
    destruct (Z.eq_dec n 0) as [->|Hn0]; [apply Z.pow_pos_nonneg; lia|].
    pose proof (Z.log2_spec n ltac:(lia)) as [_ Hs].
    apply (Z.lt_le_trans _ (2 ^ Z.succ (Z.log2 n))); [exact Hs|].
    apply (Z.le_trans _ (10 ^ Z.succ (Z.log2 n))).
    + apply Z.pow_le_mono_l. lia.
    + apply Z.pow_le_mono_r; lia.
  - exists ds. rewrite H1, app_nil_r. split; [reflexivity | exact H2].
Qed.

Lemma digit_not_space : forall b, is_digit b = true -> is_int_space b = false.
Proof.
  intros b H. unfold is_digit, is_int_space, in_range in *.
  apply andb_true_iff in H as [H1 H2]. apply Z.leb_le in H1. apply Z.leb_le in H2.
  destruct (9 <=? b) eqn:E1, (b <=? 13) eqn:E2, (28 <=? b) eqn:E3, (b <=? 32) eqn:E4;
    cbn; try reflexivity; rewrite ?Z.leb_le, ?Z.leb_gt in *; lia.
Qed.

Lemma drop_space_digits : forall l,
  l <> [] -> Forall (fun b => is_digit b = true) l -> drop_space l = l.
Proof.
  intros [|b r] Hne Hd; [contradiction|]. inversion Hd; subst. cbn.
  rewrite digit_not_space by assumption. reflexivity.
Qed.

Lemma lstrip_Q_digits : forall s,
  bytes_of s <> [] -> Forall (fun b => is_digit b = true) (bytes_of s) -> lstrip_Q s = s.
Proof.
  intros [|c r] Hne Hd; [contradiction|]. cbn in Hd. inversion Hd as [|? ? Hc]; subst.
  cbn. destruct (Ascii.eqb c "Q"%char) eqn:E; [|reflexivity].
  apply Ascii.eqb_eq in E. subst c. discriminate.
Qed.

(** [int(str(n))] for the decimal form of a non-negative [int]. *)
Lemma py_int_of_z_to_dec : forall n, 0 <= n -> py_int_of_str (z_to_dec n) = Some n.
Proof.
  intros n Hn. destruct (z_to_dec_digits n Hn) as [ds [Hb [Hne [Hd Hv]]]].
  unfold py_int_of_str. rewrite Hb, (drop_space_digits ds Hne Hd).
  rewrite (drop_space_digits (rev ds)), rev_involutive.
  - destruct ds as [|b r] eqn:Eds; [contradiction|].
    inversion Hd as [|? ? Hb0]; subst.
    assert (Hb45 : (b =? 45) = false /\ (b =? 43) = false).
    { unfold is_digit, in_range in Hb0. apply andb_true_iff in Hb0 as [H1 H2].
      apply Z.leb_le in H1. split; apply Z.eqb_neq; lia. }
    destruct Hb45 as [-> ->]. rewrite <- (app_nil_r (b :: r)), Hv. cbn. reflexivity.
  - intros H. apply Hne. rewrite <- (rev_involutive ds), H. reflexivity.
  - apply Forall_rev, Hd.
Qed.

Lemma str_app_nil_r : forall s, (s ++ "")%string = s.
Proof. induction s as [|c s IH]; cbn; [reflexivity | rewrite IH; reflexivity]. Qed.

Lemma str_app_assoc : forall s t u, (s ++ (t ++ u))%string = ((s ++ t) ++ u)%string.
Proof. induction s as [|c s IH]; intros t u; cbn; [reflexivity | rewrite IH; reflexivity]. Qed.

Lemma after_last_slash_app : forall s t cur,
  after_last_slash (s ++ t) cur = after_last_slash t (after_last_slash s cur).
Proof.
  induction s as [|c s IH]; intros t cur; cbn; [reflexivity|].
  destruct (Ascii.eqb c "/"%char); apply IH.
Qed.

Lemma after_last_slash_none : forall t cur,
  Forall (fun b => b <> 47) (bytes_of t) -> after_last_slash t cur = (cur ++ t)%string.
Proof.
  induction t as [|c t IH]; intros cur H; cbn in *.
  - rewrite str_app_nil_r. reflexivity.
  - inversion H as [|? ? Hc Ht]; subst.
    destruct (Ascii.eqb c "/"%char) eqn:E.
    + apply Ascii.eqb_eq in E. subst c. exfalso. apply Hc. reflexivity.
    + rewrite IH by exact Ht. rewrite <- str_app_assoc. reflexivity.
Qed.



(** ** Reading the lines *)

(** The decoder on a text followed by ['}']: [json.loads] sees one more
    code point, which no token of JSON can absorb after a complete
    document. *)

Lemma skip_ws_app_ne : forall r t, skip_ws r <> [] -> skip_ws (r ++ t) = skip_ws r ++ t.
Proof.
  induction r as [|c r IH]; intros t H; cbn in *; [contradiction|].
  destruct (is_ws c); [apply IH; exact H | reflexivity].
Qed.

Lemma skip_ws_app_nil : forall r t, skip_ws r = [] -> skip_ws (r ++ t) = skip_ws t.
Proof.
  induction r as [|c r IH]; intros t H; cbn in *; [reflexivity|].
  destruct (is_ws c); [apply IH; exact H | discriminate H].
Qed.

Lemma starts_with_brace : forall p s, ~ In 125 p ->
  starts_with (s ++ [125]) p = starts_with s p.
Proof.
  induction p as [|x p IH]; intros s Hp; [destruct s; reflexivity|].
  destruct s as [|y s]; cbn.
  - replace (x =? 125) with false; [reflexivity|].
    symmetry. apply Z.eqb_neq. intros ->. apply Hp. left. reflexivity.
  - rewrite IH; [reflexivity|]. intros H. apply Hp. right. exact H.
Qed.

Lemma starts_with_length : forall p s, starts_with s p = true -> (length p <= length s)%nat.
Proof.
  induction p as [|x p IH]; intros s H; cbn; [lia|].
  destruct s as [|y s]; cbn in H; [discriminate|].
  apply andb_prop in H as [_ H]. apply IH in H. cbn. lia.
Qed.

Lemma skipn_app_le : forall (n : nat) (s t : list Z), (n <= length s)%nat ->
  skipn n (s ++ t) = skipn n s ++ t.
Proof.
  intros n s t H. rewrite skipn_app. replace (n - length s)%nat with 0%nat by lia. reflexivity.
Qed.

Lemma span_digits_brace : forall s,
  span_digits (s ++ [125]) = (fst (span_digits s), snd (span_digits s) ++ [125]).
Proof.
  induction s as [|c s IH]; [reflexivity|].
  cbn [app span_digits]. destruct (is_digit c); [|reflexivity].
  rewrite IH. destruct (span_digits s); reflexivity.
Qed.

Ltac gdestruct t := let p := fresh "p" in set (p := t) in *; clearbody p; destruct p.
Ltac bdestruct t := let p := fresh "p" in let E := fresh "E" in
  remember t as p eqn:E in *; destruct p.
Ltac brace_step :=
  match goal with
  | H : None = Some _ |- _ => discriminate H
  | H : Some _ = Some _ |- Some _ = Some _ => injection H as <- <-; reflexivity
  | |- context [span_digits (?x ++ [125])] => rewrite span_digits_brace
  | |- context [?b && false] => rewrite (Bool.andb_false_r b)
  | H : context [?b && false] |- _ => rewrite (Bool.andb_false_r b) in H
  | |- context [span_digits ?x] => gdestruct (span_digits x)
  | |- context [match ?x ++ [125] with _ => _ end] => is_var x; destruct x
  | |- context [if ?b then _ else _] => bdestruct b
  | H : context [if ?b then _ else _] |- _ => bdestruct b
  | H : context [span_digits ?x] |- _ => gdestruct (span_digits x)
  end.
Lemma scan_number_brace : forall s v r, scan_number s = Some (v, r) ->
  scan_number (s ++ [125]) = Some (v, r ++ [125]).
Proof.
  intros s v r H. destruct s as [|c r0]; [discriminate H|].
  unfold scan_number in *. cbn [app] in *.
  repeat (cbn -[digits_val] in *; brace_step).
  all: exfalso; unfold is_digit, in_range in *;
    repeat match goal with
    | E : true = _ |- _ => symmetry in E
    | E : (_ && _) = true |- _ => apply andb_prop in E as [? ?]
    | E : (_ =? _) = true |- _ => apply Z.eqb_eq in E
    | E : (_ <=? _) = true |- _ => apply Z.leb_le in E
    end; lia.
Qed.

Lemma scanstring_brace : forall f f' s acc cps r, scanstring f s acc = Some (cps, r) ->
  (f <= f')%nat -> scanstring f' (s ++ [125]) acc = Some (cps, r ++ [125]).
Proof.
  induction f as [|f IH]; intros f' s acc cps r H Hf; [discriminate H|].
  destruct f' as [|f']; [lia|]. apply le_S_n in Hf.
  destruct s as [|c s]; [discriminate H|]. cbn [app scanstring] in *.
  destruct (c =? 34); [injection H as <- <-; reflexivity|].
  destruct (c =? 92).
  - destruct s as [|e r1]; [discriminate H|]. cbn [app].
    destruct (e =? 117).
    + destruct r1 as [|h1 [|h2 [|h3 [|h4 r2]]]]; try discriminate H. cbn [app].
      destruct r2 as [|x r2]; [discriminate H|].
      destruct (hex4 h1 h2 h3 h4) as [u|]; [|discriminate H].
      change (x :: r2 ++ [125]) with ((x :: r2) ++ [125]).
      rewrite starts_with_brace by (cbn; lia).
      rewrite length_app. cbn [length].
      destruct (in_range 55296 56319 u) eqn:Eu; cbn [andb] in *; [|apply IH; assumption].
      destruct (Nat.eq_dec (length (x :: r2)) 6) as [L6|L6].
      * destruct (starts_with (x :: r2) [92; 117]) eqn:Es.
        -- exfalso. rewrite L6 in H. cbn in H.
           destruct r2 as [|y [|g1 [|g2 [|g3 [|g4 [|z r3]]]]]]; cbn in L6; try discriminate L6.
           cbn [starts_with] in Es. apply andb_prop in Es as [Ex Es]. apply andb_prop in Es as [Ey _].
           apply Z.eqb_eq in Ex, Ey. subst x y.
           destruct f; cbn in H; discriminate H.
        -- rewrite !andb_false_r in *. apply IH; assumption.
      * replace (7 <=? Z.of_nat (S (length r2) + 1))
          with (7 <=? Z.of_nat (length (x :: r2))) by (cbn [length] in *; apply Bool.eq_iff_eq_true; rewrite !Z.leb_le; lia).
        destruct ((7 <=? Z.of_nat (length (x :: r2))) && starts_with (x :: r2) [92; 117]) eqn:Ec;
          [|apply IH; assumption].
        apply andb_prop in Ec as [El _]. apply Z.leb_le in El.
        rewrite skipn_app_le by lia.
        destruct (skipn 2 (x :: r2)) as [|g1 [|g2 [|g3 [|g4 r3]]]]; try discriminate H.
        cbn [app].
        destruct (hex4 g1 g2 g3 g4) as [u2|]; [|discriminate H].
        destruct (in_range 56320 57343 u2); [apply IH | apply (IH f' (x :: r2))]; assumption.
    + destruct (simple_escape e); [|discriminate H]. apply IH; assumption.
  - destruct (c <=? 31); [discriminate H|]. apply IH; assumption.
Qed.

Lemma scan_once_nil : forall f, scan_once f [] = None.
Proof. destruct f; reflexivity. Qed.

Lemma parse_members_nil : forall f acc, parse_members f [] acc = None.
Proof. destruct f; reflexivity. Qed.

Lemma parse_elems_nil : forall f acc, parse_elems f [] acc = None.
Proof. destruct f; [reflexivity|]. cbn. rewrite scan_once_nil. reflexivity. Qed.

Lemma literal_brace : forall p s, ~ In 125 p -> starts_with s p = true ->
  starts_with (s ++ [125]) p = true /\ skipn (length p) (s ++ [125]) = skipn (length p) s ++ [125].
Proof.
  intros p s Hp H. split.
  - rewrite starts_with_brace by exact Hp. exact H.
  - apply skipn_app_le, starts_with_length, H.
Qed.

Ltac lit_case p :=
  let E := fresh "E" in let E1 := fresh "E" in let E2 := fresh "E" in
  destruct (starts_with _ p) eqn:E;
  [ destruct (literal_brace p _ ltac:(cbn; lia) E) as [E1 E2];
    rewrite E1; cbn [length] in E2 |- *; rewrite E2;
    match goal with H : Some _ = Some _ |- _ => injection H as <- <- end; reflexivity
  | rewrite starts_with_brace by (cbn; lia); rewrite E ].

Lemma scan_brace : forall f,
  (forall s v r f', scan_once f s = Some (v, r) -> (f <= f')%nat ->
     scan_once f' (s ++ [125]) = Some (v, r ++ [125])) /\
  (forall s acc v r f', parse_members f s acc = Some (v, r) -> (f <= f')%nat ->
     parse_members f' (s ++ [125]) acc = Some (v, r ++ [125])) /\
  (forall s acc v r f', parse_elems f s acc = Some (v, r) -> (f <= f')%nat ->
     parse_elems f' (s ++ [125]) acc = Some (v, r ++ [125])).
Proof.
  induction f as [|f IH]; [repeat split; intros; discriminate|].
  destruct IH as (IHs & IHm & IHe).
  repeat split.
  - intros s v r f' H Hf. destruct f' as [|f']; [lia|]. apply le_S_n in Hf.
    destruct s as [|c s]; [discriminate H|]. cbn [scan_once app] in *.
    destruct (c =? 34).
    + destruct (scanstring (S (length s)) s []) as [[cps r']|] eqn:Es; [|discriminate H].
      rewrite (scanstring_brace _ (S (length (s ++ [125]))) _ _ _ _ Es)
        by (rewrite length_app; lia).
      injection H as <- <-. reflexivity.
    + destruct (c =? 123).
      * destruct (skip_ws s) as [|c1 r1] eqn:Ew; [discriminate H|].
        rewrite skip_ws_app_ne by (rewrite Ew; discriminate). rewrite Ew. cbn [app].
        destruct (c1 =? 125); [injection H as <- <-; reflexivity|].
        apply (IHm (c1 :: r1)); assumption.
      * destruct (c =? 91).
        -- destruct (skip_ws s) as [|c1 r1] eqn:Ew; [discriminate H|].
           rewrite skip_ws_app_ne by (rewrite Ew; discriminate). rewrite Ew. cbn [app].
           destruct (c1 =? 93); [injection H as <- <-; reflexivity|].
           apply (IHe (c1 :: r1)); assumption.
        -- change (c :: s ++ [125]) with ((c :: s) ++ [125]).
           lit_case [110; 117; 108; 108].
           lit_case [116; 114; 117; 101].
           lit_case [102; 97; 108; 115; 101].
           lit_case [78; 97; 78].
           lit_case [73; 110; 102; 105; 110; 105; 116; 121].
           lit_case [45; 73; 110; 102; 105; 110; 105; 116; 121].
           apply scan_number_brace. exact H.
  - intros s acc v r f' H Hf. destruct f' as [|f']; [lia|]. apply le_S_n in Hf.
    destruct s as [|c s]; [discriminate H|]. cbn [parse_members app] in *.
    destruct (c =? 34); [|discriminate H].
    destruct (scanstring (S (length s)) s []) as [[kcps r1]|] eqn:Es; [|discriminate H].
    rewrite (scanstring_brace _ (S (length (s ++ [125]))) _ _ _ _ Es)
      by (rewrite length_app; lia).
    destruct (skip_ws r1) as [|c1 r2] eqn:Ew1; [discriminate H|].
    rewrite skip_ws_app_ne by (rewrite Ew1; discriminate). rewrite Ew1. cbn [app].
    destruct (c1 =? 58); [|discriminate H].
    rewrite skip_ws_app_ne
      by (intros Ew2; rewrite Ew2, scan_once_nil in H; discriminate H).
    destruct (scan_once f (skip_ws r2)) as [[v3 r3]|] eqn:E3; [|discriminate H].
    rewrite (IHs _ _ _ f' E3 Hf).
    destruct (skip_ws r3) as [|c3 r4] eqn:Ew3; [discriminate H|].
    rewrite skip_ws_app_ne by (rewrite Ew3; discriminate). rewrite Ew3. cbn [app].
    destruct (c3 =? 125); [injection H as <- <-; reflexivity|].
    destruct (c3 =? 44); [|discriminate H].
    rewrite skip_ws_app_ne
      by (intros Ew4; rewrite Ew4, parse_members_nil in H; discriminate H).
    apply IHm; assumption.
  - intros s acc v r f' H Hf. destruct f' as [|f']; [lia|]. apply le_S_n in Hf.
    cbn [parse_elems] in *.
    destruct (scan_once f s) as [[v1 r1]|] eqn:E1; [|discriminate H].
    rewrite (IHs _ _ _ f' E1 Hf).
    destruct (skip_ws r1) as [|c r2] eqn:Ew1; [discriminate H|].
    rewrite skip_ws_app_ne by (rewrite Ew1; discriminate). rewrite Ew1. cbn [app].
    destruct (c =? 93); [injection H as <- <-; reflexivity|].
    destruct (c =? 44); [|discriminate H].
    rewrite skip_ws_app_ne
      by (intros Ew2; rewrite Ew2, parse_elems_nil in H; discriminate H).
    apply IHe; assumption.
Qed.

Lemma decode_document_brace : forall cps v,
  decode_document cps = Some v -> decode_document (cps ++ [125]) = None.
Proof.
  intros cps v H. unfold decode_document in *.
  destruct (scan_once (2 * length (skip_ws cps) + 2) (skip_ws cps)) as [[v1 r1]|] eqn:E;
    [|discriminate H].
  assert (Hne : skip_ws cps <> []) by (intros Ew; rewrite Ew, scan_once_nil in E; discriminate E).
  rewrite (skip_ws_app_ne _ _ Hne).
  destruct (scan_brace (2 * length (skip_ws cps) + 2)%nat) as [Hs _].
  rewrite (Hs _ _ _ (2 * length (skip_ws cps ++ [125%Z]) + 2)%nat E) by (rewrite length_app; lia).
  destruct (skip_ws r1) eqn:Ew; [|discriminate H].
  rewrite (skip_ws_app_nil _ _ Ew). reflexivity.
Qed.

Lemma utf8_decode_brace : forall b,
  utf8_decode (b ++ [125]) = option_map (fun cps => cps ++ [125]) (utf8_decode b).
Proof.
  intros b. remember (length b) as n eqn:En. revert b En.
  induction n as [n IH] using lt_wf_ind. intros b En.
  destruct b as [|c r]; [reflexivity|]. cbn [app utf8_decode].
  destruct (c <? 128).
  { rewrite (IH (length r)) by (cbn in En; lia || reflexivity).
    destruct (utf8_decode r); reflexivity. }
  destruct (in_range 194 223 c).
  { destruct r as [|c1 r']; [reflexivity|]. cbn [app].
    destruct (cont c1); [|reflexivity].
    rewrite (IH (length r')) by (cbn in En; lia || reflexivity).
    destruct (utf8_decode r'); reflexivity. }
  destruct (in_range 224 239 c).
  { destruct r as [|c1 [|c2 r']]; cbn [app].
    - reflexivity.
    - destruct (if c =? 224 then in_range 160 191 c1 else cont c1); reflexivity.
    - destruct ((if c =? 224 then in_range 160 191 c1 else cont c1) && cont c2); [|reflexivity].
      rewrite (IH (length r')) by (cbn in En; lia || reflexivity).
      destruct (utf8_decode r'); reflexivity. }
  destruct (in_range 240 244 c); [|reflexivity].
  destruct r as [|c1 [|c2 [|c3 r']]]; cbn [app].
  - reflexivity.
  - reflexivity.
  - destruct (if c =? 240 then in_range 144 191 c1
              else if c =? 244 then in_range 128 143 c1 else cont c1); cbn; [|reflexivity].
    destruct (cont c2); reflexivity.
  - destruct ((if c =? 240 then in_range 144 191 c1
               else if c =? 244 then in_range 128 143 c1 else cont c1)
              && cont c2 && cont c3); [|reflexivity].
    rewrite (IH (length r')) by (cbn in En; lia || reflexivity).
    destruct (utf8_decode r'); reflexivity.
Qed.

Lemma detect_encoding_utf8 : forall b, hd_error b = Some 123 ->
  forallb (fun x => negb (x =? 0)) b = true -> detect_encoding b = Utf8.
Proof.
  intros b Hh Hz.
  destruct b as [|b0 r]; [discriminate Hh|]. injection Hh as ->.
  unfold detect_encoding. cbn [starts_with].
  cbn [forallb negb] in Hz.
  destruct r as [|b1 [|b2 [|b3 r]]]; [reflexivity|..];
    cbn in Hz |- *; destruct b1; cbn in Hz |- *; first [reflexivity | discriminate Hz].
Qed.

Lemma json_loads_brace : forall s v,
  hd_error (bytes_of s) = Some 123 ->
  forallb (fun x => negb (x =? 0)) (bytes_of s) = true ->
  json_loads (s ++ "}") = Ok v -> json_loads s = Exc JSONDecodeError.
Proof.
  intros s v Hh Hz H. unfold json_loads in *.
  rewrite bytes_of_app in H. change (bytes_of "}") with [125] in H.
  rewrite (detect_encoding_utf8 _ Hh Hz).
  rewrite detect_encoding_utf8 in H.
  2:{ destruct (bytes_of s); [discriminate Hh | exact Hh]. }
  2:{ rewrite forallb_app, Hz. reflexivity. }
  cbn [decode_text] in *. rewrite utf8_decode_brace in H.
  destruct (utf8_decode (bytes_of s)) as [cps|]; cbn [option_map] in H; [|discriminate H].
  destruct (decode_document cps) eqn:D; [|reflexivity].
  rewrite (decode_document_brace _ _ D) in H. discriminate H.
Qed.



